(** * HR e-mail automation: event detection and once-per-run delivery

    A shallow embedding of [main.py] (class [HREmailAutomation]): the date
    resolver [parse_date], the three detectors [check_birthday],
    [check_work_anniversary] and [check_marriage_anniversary], the delivery
    engine [send_email] and the time-gated driver [run].

    Conventions of the embedding.
    - A Python [str] is a [string]; literals keep their UTF-8 bytes.  The
      regular expressions of [datetime.strptime] are given on ASCII digits.
    - A Python [int] is a [Z].
    - The object's mutable fields ([email_sent_today], the logger) and the
      effects on the outside world (SMTP sessions, [time.sleep], reads of the
      workbook) are the fields of one [State], threaded through every
      method.  Lists that record history are most-recent-first.
    - The outside world's answers (does the n-th SMTP session complete, which
      templates exist, what the workbook holds, what the clock shows) are the
      fields of an [Env].
    - An exception is a value of [exn]; a method that may raise returns a
      [result]. *)

From Stdlib Require Import ZArith Lia List String Ascii DecimalString.
From stdpp Require Import gmap strings list.

Open Scope string_scope.
Open Scope list_scope.
Open Scope Z_scope.

(** ** Python values *)

Inductive exn :=
| ValueError (msg : string)
| TypeError (msg : string)
| FileNotFoundError (msg : string)
| OtherError (msg : string).

(** [str(e)] *)
Definition exn_text (e : exn) : string :=
  match e with
  | ValueError m | TypeError m | FileNotFoundError m | OtherError m => m
  end.

Inductive result (A : Type) :=
| Ok (a : A)
| Raise (e : exn).
Arguments Ok {A} a.
Arguments Raise {A} e.

(** What a method that ends in [return True], [return False] or by falling
    off its end hands back. *)
Inductive pyret := RTrue | RFalse | RNone.

(** Truth value of a returned object, as [if self.check_birthday(row):]
    takes it. *)
Definition truthy (r : pyret) : bool :=
  match r with RTrue => true | _ => false end.

(** [str(n)] for an [int]. *)
Definition str (n : Z) : string := NilEmpty.string_of_int (Z.to_int n).

(** [f"{n:02d}"] *)
Definition fmt_02d (n : Z) : string :=
  if (0 <=? n) && (n <? 10) then "0" +:+ str n else str n.

(** [range(lo, hi)] *)
Definition py_range (lo hi : Z) : list Z :=
  List.map (fun i => lo + Z.of_nat i) (seq 0 (Z.to_nat (hi - lo))).

(** [s.replace(old, new)] for a non-empty [old]: every occurrence, left to
    right, without overlap.  [skip] counts the characters of an occurrence
    already replaced that are still to be dropped. *)
Fixpoint replace_from (old new s : string) (skip : nat) : string :=
  match s with
  | EmptyString => EmptyString
  | String c s' =>
      match skip with
      | S k => replace_from old new s' k
      | O =>
          if String.prefix old s
          then new +:+ replace_from old new s' (Nat.pred (String.length old))
          else String c (replace_from old new s' O)
      end
  end.

Definition replace (s old new : string) : string := replace_from old new s O.

(** ** Calendar dates *)

Record date := mkdate { year : Z; month : Z; day : Z }.

Record datetime := mkdatetime {
  dt_date : date;
  hour : Z;
  minute : Z;
  second : Z
}.

Definition is_leap (y : Z) : bool :=
  (y mod 4 =? 0) && (negb (y mod 100 =? 0) || (y mod 400 =? 0)).

Definition days_in_month (y m : Z) : Z :=
  if m =? 2 then (if is_leap y then 29 else 28)
  else if (m =? 4) || (m =? 6) || (m =? 9) || (m =? 11) then 30
  else 31.

(** The check the [date] constructor makes: [MINYEAR = 1], [MAXYEAR = 9999]. *)
Definition valid_date (y m d : Z) : bool :=
  (1 <=? y) && (y <=? 9999) && (1 <=? m) && (m <=? 12) &&
  (1 <=? d) && (d <=? days_in_month y m).

(** ** [datetime.strptime]

    The library turns a format into a regular expression, one named group
    per directive, matches it at the start of the text ([re.match], first
    match in backtracking order), refuses text left over, and builds the date
    from the groups.  The groups of the three directives in use:
    - [%d]: [3[0-1]|[1-2]\d|0[1-9]|[1-9]| [1-9]]
    - [%m]: [1[0-2]|0[1-9]|[1-9]]
    - [%Y]: [\d\d\d\d] *)

Definition code (c : ascii) : Z := Z.of_N (N_of_ascii c).

Definition cls := ascii -> bool.

Definition one (a : ascii) : cls := fun c => Ascii.eqb a c.
Definition range (lo hi : ascii) : cls :=
  fun c => (code lo <=? code c) && (code c <=? code hi).
Definition digit : cls := range "0" "9".

Inductive directive := Dd | Dm | DY.

Definition alternatives (d : directive) : list (list cls) :=
  match d with
  | Dd => [ [one "3"; range "0" "1"];
            [range "1" "2"; digit];
            [one "0"; range "1" "9"];
            [range "1" "9"];
            [one " "; range "1" "9"] ]
  | Dm => [ [one "1"; range "0" "2"];
            [one "0"; range "1" "9"];
            [range "1" "9"] ]
  | DY => [ [digit; digit; digit; digit] ]
  end.

Inductive item :=
| Group (d : directive)
| Lit (c : ascii).

Definition directive_of (x : ascii) : option directive :=
  if Ascii.eqb x "d" then Some Dd
  else if Ascii.eqb x "m" then Some Dm
  else if Ascii.eqb x "Y" then Some DY
  else None.

(** The pattern of a format: [%x] becomes the group of [x], any other
    character stands for itself.  Only the directives above are covered, a
    stray [%] or another directive gives [None]. *)
Fixpoint pattern (fmt : string) : option (list item) :=
  match fmt with
  | EmptyString => Some []
  | String c fmt' =>
      if Ascii.eqb c "%" then
        match fmt' with
        | EmptyString => None
        | String x fmt'' =>
            match directive_of x, pattern fmt'' with
            | Some d, Some p => Some (Group d :: p)
            | _, _ => None
            end
        end
      else
        match pattern fmt' with
        | Some p => Some (Lit c :: p)
        | None => None
        end
  end.

(** One alternative against the start of the text: the text it takes and
    the text after it. *)
Fixpoint match_seq (p : list cls) (s : string) : option (string * string) :=
  match p with
  | [] => Some (EmptyString, s)
  | k :: p' =>
      match s with
      | EmptyString => None
      | String c s' =>
          if k c then
            match match_seq p' s' with
            | Some (m, r) => Some (String c m, r)
            | None => None
            end
          else None
      end
  end.

Record groups := mkgroups {
  g_d : option string;
  g_m : option string;
  g_Y : option string
}.

Definition no_groups : groups := mkgroups None None None.

Definition set_group (d : directive) (m : string) (g : groups) : groups :=
  match d with
  | Dd => mkgroups (Some m) (g_m g) (g_Y g)
  | Dm => mkgroups (g_d g) (Some m) (g_Y g)
  | DY => mkgroups (g_d g) (g_m g) (Some m)
  end.

(** Backtracking match: the alternatives of a group are tried in order, and
    a later one only when the rest of the pattern fails after the earlier. *)
Fixpoint re_match (p : list item) (s : string) (found : groups)
  : option (groups * string) :=
  match p with
  | [] => Some (found, s)
  | Lit c :: p' =>
      match s with
      | EmptyString => None
      | String c' s' => if Ascii.eqb c c' then re_match p' s' found else None
      end
  | Group d :: p' =>
      (fix try (alts : list (list cls)) : option (groups * string) :=
         match alts with
         | [] => None
         | a :: alts' =>
             match match_seq a s with
             | Some (m, r) =>
                 match re_match p' r (set_group d m found) with
                 | Some res => Some res
                 | None => try alts'
                 end
             | None => try alts'
             end
         end) (alternatives d)
  end.

(** [int(text)] on the text of a group: decimal digits, after a blank that
    [int] ignores. *)
Definition py_int (text : string) : Z :=
  fold_left (fun acc c => if digit c then 10 * acc + (code c - 48) else acc)
            (list_ascii_of_string text) 0.

Definition group_int (g : option string) (default : Z) : Z :=
  match g with
  | Some text => py_int text
  | None => default
  end.

Definition strptime (data_string fmt : string) : result date :=
  match pattern fmt with
  | None => Raise (ValueError "bad directive in format")
  | Some p =>
      match re_match p data_string no_groups with
      | None => Raise (ValueError "time data does not match format")
      | Some (found, rest) =>
          match rest with
          | String _ _ => Raise (ValueError "unconverted data remains")
          | EmptyString =>
              let y := group_int (g_Y found) 1900 in
              let m := group_int (g_m found) 1 in
              let d := group_int (g_d found) 1 in
              if valid_date y m d then Ok (mkdate y m d)
              else Raise (ValueError "day is out of range for month")
          end
      end
  end.

(** The inverse, used to write a date out in a format: [%d] and [%m] as two
    digits, [%Y] as four. *)
Definition digit_char (k : Z) : ascii := ascii_of_N (Z.to_N (48 + k)).

Definition two_digits (n : Z) : string :=
  String (digit_char (n / 10)) (String (digit_char (n mod 10)) EmptyString).

Definition four_digits (n : Z) : string :=
  String (digit_char (n / 1000))
    (String (digit_char (n / 100 mod 10))
       (String (digit_char (n / 10 mod 10))
          (String (digit_char (n mod 10)) EmptyString))).

Definition render_directive (d : directive) (x : date) : string :=
  match d with
  | Dd => two_digits (day x)
  | Dm => two_digits (month x)
  | DY => four_digits (year x)
  end.

Fixpoint render (p : list item) (x : date) : string :=
  match p with
  | [] => EmptyString
  | Lit c :: p' => String c (render p' x)
  | Group d :: p' => render_directive d x +:+ render p' x
  end.

Definition strftime (x : date) (fmt : string) : string :=
  match pattern fmt with
  | Some p => render p x
  | None => EmptyString
  end.

(** [t.strftime('%H:%M')] and [t.strftime('%Y-%m-%d %H:%M:%S')] *)
Definition fmt_hm (t : datetime) : string :=
  two_digits (hour t) +:+ ":" +:+ two_digits (minute t).

Definition fmt_timestamp (t : datetime) : string :=
  strftime (dt_date t) "%Y-%m-%d" +:+ " " +:+ fmt_hm t +:+ ":" +:+
  two_digits (second t).

(** ** Employee records

    A row of the workbook.  A column that the sheet does not have is [None]
    ([row.get] then gives [None] or its default); an empty cell is read as
    NaN; a text column holds a [str]; a date column holds a timestamp
    (a [datetime]) or any other value, kept as the text [str(value)]. *)

Inductive text_cell := TNaN | TStr (s : string).

Inductive date_cell := DNaN | DStamp (t : datetime) | DStr (s : string).

Record Row := mkRow {
  employee_name : option text_cell;
  email : option text_cell;
  date_of_birth : option date_cell;
  date_of_joining : option date_cell;
  marriage_anniversary : option date_cell
}.

(** A text cell inside an f-string. *)
Definition fmt_text (c : text_cell) : string :=
  match c with
  | TNaN => "nan"
  | TStr s => s
  end.

Definition fmt_date_cell (c : option date_cell) : string :=
  match c with
  | None => "None"
  | Some DNaN => "nan"
  | Some (DStamp t) => fmt_timestamp t
  | Some (DStr s) => s
  end.

(** [row.get('Employee Name', default)] *)
Definition get_name (row : Row) (default : string) : text_cell :=
  match employee_name row with
  | Some c => c
  | None => TStr default
  end.

(** The guard [if not email or pd.isna(email)]: [None] when it fires, the
    address otherwise. *)
Definition usable_email (e : option text_cell) : option string :=
  match e with
  | None => None
  | Some TNaN => None
  | Some (TStr s) =>
      match s with
      | EmptyString => None
      | String _ _ => Some s
      end
  end.

(** ** The object, the world and the state of a run *)

Record Config := mkConfig {
  sender_email : string;
  password : string;
  provider : string;
  smtp_host : string;
  smtp_port : Z;
  template_directory : option string;
  excel_file_path : option string
}.

Record Env := mkEnv {
  config : Config;
  today : date;
  target_hour : Z;
  target_minute : Z;
  (** the n-th SMTP session of the run: [None] when it completes, the
      exception it raises otherwise *)
  smtp_outcome : nat -> option exn;
  (** the file at a path, when there is one *)
  template_file : string -> option string;
  (** what [pd.read_excel] gives *)
  workbook : result (list Row);
  (** [datetime.now(IST)] when [run] starts and when it ends *)
  clock_at_run : datetime;
  clock_at_end : datetime
}.

Inductive level := INFO | WARNING | ERROR.

(** One pass through the [try] block of [send_email]: the session that was
    opened, for which event, and whether it completed. *)
Record session := mkSession {
  s_host : string;
  s_port : Z;
  s_from : string;
  s_to : string;
  s_subject : string;
  s_html : string;
  s_event : string;
  s_ok : bool
}.

Record State := mkState {
  email_sent_today : gset (string * string);
  logger : list (level * string);
  smtp_sessions : list session;
  sleeps : list Z;
  excel_reads : nat
}.

Definition log (l : level) (msg : string) (st : State) : State :=
  mkState (email_sent_today st) ((l, msg) :: logger st) (smtp_sessions st)
          (sleeps st) (excel_reads st).

Definition sleep (secs : Z) (st : State) : State :=
  mkState (email_sent_today st) (logger st) (smtp_sessions st)
          (secs :: sleeps st) (excel_reads st).

Definition add_sent (key : string * string) (st : State) : State :=
  mkState ({[ key ]} ∪ email_sent_today st) (logger st) (smtp_sessions st)
          (sleeps st) (excel_reads st).

Definition record_session (s : session) (st : State) : State :=
  mkState (email_sent_today st) (logger st) (s :: smtp_sessions st)
          (sleeps st) (excel_reads st).

Definition count_read (st : State) : State :=
  mkState (email_sent_today st) (logger st) (smtp_sessions st)
          (sleeps st) (S (excel_reads st)).

(** [__init__]: today's date from the clock, an empty registry, the target
    time 16:49, and the first line of the log. *)
Definition init (cfg : Config) (now : datetime)
    (outcome : nat -> option exn) (files : string -> option string)
    (book : result (list Row)) (at_run at_end : datetime) : Env * State :=
  (mkEnv cfg (dt_date now) 16 49 outcome files book at_run at_end,
   mkState ∅
     [(INFO, "=== HR Email Automation Started (IST: " +:+ fmt_timestamp now
             +:+ ") ===")]
     [] [] O).

(** ** [parse_date] *)

Definition date_formats : list string :=
  ["%d-%m-%Y"; "%d/%m/%Y"; "%Y-%m-%d"; "%d.%m.%Y"].

(** The [for fmt in date_formats] loop: a [ValueError] moves on to the next
    format, any other exception leaves the loop for the outer handler, and
    the end of the list is the [return None] below the loop. *)
Fixpoint try_formats (text : string) (fmts : list string)
  : result (option date) :=
  match fmts with
  | [] => Ok None
  | fmt :: fmts' =>
      match strptime text fmt with
      | Ok d => Ok (Some d)
      | Raise (ValueError _) => try_formats text fmts'
      | Raise e => Raise e
      end
  end.

(** [pd.isna(date_value)] on what [row.get] returned. *)
Definition isna (v : option date_cell) : bool :=
  match v with
  | None | Some DNaN => true
  | Some _ => false
  end.

Definition parse_date (date_value : option date_cell) (st : State)
  : option date * State :=
  if isna date_value then (None, st)
  else
    let body :=
      match date_value with
      | Some (DStamp t) => Ok (Some (dt_date t))
      | Some (DStr text) => try_formats text date_formats
      | _ => Ok None
      end in
    match body with
    | Ok r => (r, st)
    | Raise e =>
        (None,
         log WARNING ("Could not parse date: " +:+ fmt_date_cell date_value
                      +:+ " - " +:+ exn_text e) st)
    end.

(** ** [load_email_template] *)

(** [Path(self.config.get('template_directory', 'templates')) / template_name] *)
Definition template_path (cfg : Config) (template_name : string) : string :=
  match template_directory cfg with
  | Some dir => dir
  | None => "templates"
  end +:+ "/" +:+ template_name.

Definition load_email_template (env : Env) (template_name : string)
    (st : State) : result string * State :=
  let path := template_path (config env) template_name in
  match template_file env path with
  | Some text => (Ok text, st)
  | None =>
      (Raise (FileNotFoundError
                ("[Errno 2] No such file or directory: '" +:+ path +:+ "'")),
       log ERROR ("Template not found: " +:+ path) st)
  end.

(** ** [send_email] *)

(** The server the session is opened with. *)
Definition smtp_server (cfg : Config) : string * Z :=
  if String.eqb (provider cfg) "gmail" then ("smtp.gmail.com", 587)
  else if String.eqb (provider cfg) "outlook" then ("smtp.office365.com", 587)
  else (smtp_host cfg, smtp_port cfg).

(** The [for attempt in range(1, max_retries + 1)] loop, over the attempt
    numbers still to come.  The body of the [try] is one SMTP session
    (connect, STARTTLS, login, send, quit); it either completes or raises.
    The call [server.login(...)] is read with the closing parenthesis that
    the source leaves out. *)
Fixpoint attempt_loop (env : Env)
    (recipient_email subject html_content event_type : string)
    (max_retries : Z) (attempts : list Z) (st : State) : pyret * State :=
  match attempts with
  | [] => (RNone, st)
  | attempt :: attempts' =>
      let outcome := smtp_outcome env (List.length (smtp_sessions st)) in
      let srv := smtp_server (config env) in
      let st :=
        record_session
          (mkSession (fst srv) (snd srv) (sender_email (config env))
             recipient_email subject html_content event_type
             (match outcome with None => true | Some _ => false end)) st in
      match outcome with
      | None =>
          let st := add_sent (recipient_email, event_type) st in
          let st :=
            log INFO ("✓ Email sent successfully to " +:+ recipient_email
                      +:+ " - " +:+ subject) st in
          (RTrue, st)
      | Some e =>
          let st :=
            log WARNING ("Attempt " +:+ str attempt +:+ "/" +:+ str max_retries
                         +:+ " failed for " +:+ recipient_email +:+ ": "
                         +:+ exn_text e) st in
          if attempt <? max_retries then
            attempt_loop env recipient_email subject html_content event_type
              max_retries attempts' (sleep 2 st)
          else
            (RFalse,
             log ERROR ("✗ Failed to send email to " +:+ recipient_email
                        +:+ " after " +:+ str max_retries +:+ " attempts") st)
      end
  end.

Definition send_email (env : Env)
    (recipient_email subject html_content event_type : string)
    (max_retries : Z) (st : State) : pyret * State :=
  let email_event_key := (recipient_email, event_type) in
  if bool_decide (email_event_key ∈ email_sent_today st) then
    (RFalse,
     log WARNING ("Duplicate email prevented for " +:+ recipient_email
                  +:+ " - " +:+ event_type) st)
  else
    attempt_loop env recipient_email subject html_content event_type
      max_retries (py_range 1 (max_retries + 1)) st.

(** ** The three detectors *)

(** [template.replace('{{name}}', name)] needs a [str]; an empty name cell
    (NaN, a float) makes it raise. *)
Definition replace_name (template : string) (name : text_cell)
  : result string :=
  match name with
  | TStr n => Ok (replace template "{{name}}" n)
  | TNaN => Raise (TypeError "replace() argument 2 must be str, not float")
  end.

Definition check_birthday (env : Env) (row : Row) (st : State)
  : result pyret * State :=
  let '(dob, st) := parse_date (date_of_birth row) st in
  match dob with
  | None => (Ok RFalse, st)
  | Some dob =>
      if (day (today env) =? day dob) && (month (today env) =? month dob)
      then
        let name := get_name row "Employee" in
        match usable_email (email row) with
        | None =>
            (Ok RFalse,
             log WARNING ("Skipped birthday for " +:+ fmt_text name
                          +:+ ": No email address") st)
        | Some addr =>
            let age := year (today env) - year dob in
            let st :=
              log INFO ("🎂 Birthday detected: " +:+ fmt_text name
                        +:+ " (Age: " +:+ str age +:+ ")") st in
            match load_email_template env "birthday.html" st with
            | (Raise e, st) => (Raise e, st)
            | (Ok template, st) =>
                match replace_name template name with
                | Raise e => (Raise e, st)
                | Ok html =>
                    let html_content := replace html "{{age}}" (str age) in
                    let subject :=
                      "🎉 Happy Birthday, " +:+ fmt_text name +:+ "!" in
                    let '(r, st) :=
                      send_email env addr subject html_content "birthday" 3 st
                    in (Ok r, st)
                end
            end
        end
      else (Ok RFalse, st)
  end.

Definition check_work_anniversary (env : Env) (row : Row) (st : State)
  : result pyret * State :=
  let '(doj, st) := parse_date (date_of_joining row) st in
  match doj with
  | None => (Ok RFalse, st)
  | Some doj =>
      if (month (today env) =? month doj) && (day (today env) =? day doj)
      then
        let years_completed := year (today env) - year doj in
        let name := get_name row "Employee" in
        match usable_email (email row) with
        | None =>
            (Ok RFalse,
             log WARNING ("Skipped work anniversary for " +:+ fmt_text name
                          +:+ ": No email address") st)
        | Some addr =>
            let st :=
              log INFO ("🎊 Work Anniversary detected: " +:+ fmt_text name
                        +:+ " (" +:+ str years_completed +:+ " years)") st in
            match load_email_template env "work_anniversary.html" st with
            | (Raise e, st) => (Raise e, st)
            | (Ok template, st) =>
                match replace_name template name with
                | Raise e => (Raise e, st)
                | Ok html =>
                    let html_content :=
                      replace html "{{years}}" (str years_completed) in
                    let subject :=
                      "🌟 Happy " +:+ str years_completed
                      +:+ " Year Work Anniversary, " +:+ fmt_text name +:+ "!"
                    in
                    let '(r, st) :=
                      send_email env addr subject html_content
                        "work_anniversary" 3 st
                    in (Ok r, st)
                end
            end
        end
      else (Ok RFalse, st)
  end.

Definition check_marriage_anniversary (env : Env) (row : Row) (st : State)
  : result pyret * State :=
  let '(marriage_date, st) := parse_date (marriage_anniversary row) st in
  match marriage_date with
  | None => (Ok RFalse, st)
  | Some marriage_date =>
      if (day (today env) =? day marriage_date)
         && (month (today env) =? month marriage_date)
      then
        let years_completed := year (today env) - year marriage_date in
        let name := get_name row "Employee" in
        match usable_email (email row) with
        | None =>
            (Ok RFalse,
             log WARNING ("Skipped marriage anniversary for " +:+ fmt_text name
                          +:+ ": No email address") st)
        | Some addr =>
            let st :=
              log INFO ("💑 Marriage Anniversary detected: " +:+ fmt_text name
                        +:+ " (" +:+ str years_completed +:+ " years)") st in
            match load_email_template env "marriage_anniversary.html" st with
            | (Raise e, st) => (Raise e, st)
            | (Ok template, st) =>
                match replace_name template name with
                | Raise e => (Raise e, st)
                | Ok html =>
                    let html_content :=
                      replace html "{{years}}" (str years_completed) in
                    let subject :=
                      "💕 Happy " +:+ str years_completed
                      +:+ " Year Marriage Anniversary, " +:+ fmt_text name
                      +:+ "!" in
                    let '(r, st) :=
                      send_email env addr subject html_content
                        "marriage_anniversary" 3 st
                    in (Ok r, st)
                end
            end
        end
      else (Ok RFalse, st)
  end.

(** ** [load_employee_data] and [run] *)

Definition load_employee_data (env : Env) (st : State)
  : result (list Row) * State :=
  let excel_path :=
    match excel_file_path (config env) with
    | Some p => p
    | None => "data/employees.xlsx"
    end in
  let st := count_read st in
  match workbook env with
  | Ok df =>
      (Ok df,
       log INFO ("Loaded " +:+ str (Z.of_nat (List.length df))
                 +:+ " employees from " +:+ excel_path) st)
  | Raise (FileNotFoundError m) =>
      (Raise (FileNotFoundError m),
       log ERROR ("Excel file not found: " +:+ excel_path) st)
  | Raise e =>
      (Raise e, log ERROR ("Error reading Excel file: " +:+ exn_text e) st)
  end.

Record counters := mkCounters {
  birthday_count : Z;
  work_anniversary_count : Z;
  marriage_anniversary_count : Z
}.

(** The body of the [for index, row in df.iterrows()] loop.  A counter that
    was raised before a later check fails keeps its new value. *)
Definition process_row (env : Env) (index : Z) (row : Row) (c : counters)
    (st : State) : counters * State :=
  let failed (e : exn) (c : counters) (st : State) :=
    let name := get_name row ("Row " +:+ str index) in
    (c, log ERROR ("Error processing employee " +:+ fmt_text name +:+ ": "
                   +:+ exn_text e) st) in
  match check_birthday env row st with
  | (Raise e, st) => failed e c st
  | (Ok r, st) =>
      let c :=
        if truthy r
        then mkCounters (birthday_count c + 1) (work_anniversary_count c)
               (marriage_anniversary_count c)
        else c in
      match check_work_anniversary env row st with
      | (Raise e, st) => failed e c st
      | (Ok r, st) =>
          let c :=
            if truthy r
            then mkCounters (birthday_count c) (work_anniversary_count c + 1)
                   (marriage_anniversary_count c)
            else c in
          match check_marriage_anniversary env row st with
          | (Raise e, st) => failed e c st
          | (Ok r, st) =>
              let c :=
                if truthy r
                then mkCounters (birthday_count c) (work_anniversary_count c)
                       (marriage_anniversary_count c + 1)
                else c in
              (c, st)
          end
      end
  end.

Fixpoint iterrows (env : Env) (index : Z) (df : list Row) (c : counters)
    (st : State) : counters * State :=
  match df with
  | [] => (c, st)
  | row :: df' =>
      let '(c, st) := process_row env index row c st in
      iterrows env (index + 1) df' c st
  end.

Definition summary (env : Env) (c : counters) (st : State) : State :=
  let st := log INFO "=== Summary ===" st in
  let st := log INFO ("Birthday emails sent: " +:+ str (birthday_count c)) st in
  let st :=
    log INFO ("Work anniversary emails sent: "
              +:+ str (work_anniversary_count c)) st in
  let st :=
    log INFO ("Marriage anniversary emails sent: "
              +:+ str (marriage_anniversary_count c)) st in
  let st :=
    log INFO ("Total emails sent: "
              +:+ str (birthday_count c + work_anniversary_count c
                       + marriage_anniversary_count c)) st in
  log INFO ("=== HR Email Automation Completed (IST: "
            +:+ fmt_timestamp (clock_at_end env) +:+ ") ===") st.

Definition run (env : Env) (st : State) : result unit * State :=
  let current_time := clock_at_run env in
  if negb (hour current_time =? target_hour env)
     || negb (minute current_time =? target_minute env)
  then
    let st :=
      log INFO ("Not scheduled time. Current time: " +:+ fmt_hm current_time
                +:+ " IST. Target time: " +:+ fmt_02d (target_hour env)
                +:+ ":" +:+ fmt_02d (target_minute env) +:+ " IST") st in
    let st := log INFO "Emails will only be sent at 16:49PM IST" st in
    (Ok tt, st)
  else
    let st :=
      log INFO ("Scheduled time reached: " +:+ fmt_hm current_time
                +:+ " IST - Processing emails...") st in
    match load_employee_data env st with
    | (Raise e, st) =>
        (Raise e,
         log ERROR ("Critical error in main execution: " +:+ exn_text e) st)
    | (Ok df, st) =>
        let '(c, st) := iterrows env 0 df (mkCounters 0 0 0) st in
        (Ok tt, summary env c st)
    end.

(** * Vocabulary of the properties *)

(** A session for this recipient and event completed. *)
Definition delivered (key : string * string) (st : State) : Prop :=
  Exists (fun s => (s_to s, s_event s) = key /\ s_ok s = true)
         (smtp_sessions st).

(** The registry holds exactly the keys with a completed session. *)
Definition registry_exact (st : State) : Prop :=
  forall key, key ∈ email_sent_today st <-> delivered key st.

(** What one call of [send_email] adds to the history. *)
Record send_effect (e k : string) (out : pyret * State) (st : State)
    (new : list session) : Prop := {
  eff_sessions : smtp_sessions (snd out) = new ++ smtp_sessions st;
  eff_mine : Forall (fun s => s_to s = e /\ s_event s = k) new;
  eff_true : fst out = RTrue <-> Exists (fun s => s_ok s = true) new;
  eff_registry :
    email_sent_today (snd out)
    = if truthy (fst out) then {[ (e, k) ]} ∪ email_sent_today st
      else email_sent_today st;
  eff_reads : excel_reads (snd out) = excel_reads st
}.

(** States of a run.
    A run starts with an empty registry and no session; from there the state
    changes by a line in the log, a read of the workbook, or a call of
    [send_email]. *)
Inductive reachable (env : Env) : State -> Prop :=
| reach_start st :
    email_sent_today st = ∅ -> smtp_sessions st = [] -> reachable env st
| reach_log st l msg : reachable env st -> reachable env (log l msg st)
| reach_read st : reachable env st -> reachable env (count_read st)
| reach_send st e subj html k max :
    reachable env st ->
    reachable env (snd (send_email env e subj html k max st)).

(** [st'] comes from [st] by lines in the log and calls of [send_email]. *)
Inductive evolves (env : Env) (st : State) : State -> Prop :=
| ev_refl : evolves env st st
| ev_log st' l msg : evolves env st st' -> evolves env st (log l msg st')
| ev_send st' e subj html k max :
    evolves env st st' ->
    evolves env st (snd (send_email env e subj html k max st')).

(** ** Sample data *)

Definition sample_config : Config :=
  mkConfig "hr@x.com" "secret" "gmail" "" 0 None None.

Definition sample_files (path : string) : option string :=
  if String.eqb path "templates/birthday.html"
  then Some "<h1>Happy Birthday {{name}}!</h1><p>{{age}} today.</p>"
  else if String.eqb path "templates/work_anniversary.html"
  then Some "<p>{{name}}: {{years}} years with us.</p>"
  else if String.eqb path "templates/marriage_anniversary.html"
  then Some "<p>{{name}}: {{years}} years married.</p>"
  else None.

Definition always_completes : nat -> option exn := fun _ => None.

Definition refused : exn := OtherError "[Errno 111] Connection refused".

Definition never_completes : nat -> option exn := fun _ => Some refused.

(** The first [n] sessions of the run fail, the later ones complete. *)
Definition fails_first (n : nat) : nat -> option exn :=
  fun i => if (i <? n)%nat then Some refused else None.

Definition at_1649 : datetime := mkdatetime (mkdate 2024 3 15) 16 49 0.

Definition asha : Row :=
  mkRow (Some (TStr "Asha")) (Some (TStr "asha@x.com"))
        (Some (DStr "15-03-1990")) None None.

Definition sample_env (outcome : nat -> option exn) (rows : list Row)
    (at_run : datetime) : Env :=
  mkEnv sample_config (mkdate 2024 3 15) 16 49 outcome sample_files (Ok rows)
        at_run at_run.

Definition fresh : State := mkState ∅ [] [] [] O.

(** The state after one birthday mail to Asha went out. *)
Definition asha_sent : State :=
  snd (send_email (sample_env always_completes [] at_1649)
         "asha@x.com" "Hi" "<p>Hi</p>" "birthday" 3 fresh).

(** Minutes since midnight, to say "one minute before" and "one minute
    after" across the hour and across midnight. *)
Definition minute_of_day (h m : Z) : Z := 60 * h + m.

Definition gate_open (env : Env) : Prop :=
  hour (clock_at_run env) = target_hour env /\
  minute (clock_at_run env) = target_minute env.

(** [run] did nothing but write its two lines to the log. *)
Definition no_op (env : Env) (st : State) : Prop :=
  fst (run env st) = Ok tt /\
  excel_reads (snd (run env st)) = excel_reads st /\
  smtp_sessions (snd (run env st)) = smtp_sessions st /\
  sleeps (snd (run env st)) = sleeps st /\
  email_sent_today (snd (run env st)) = email_sent_today st /\
  exists l1 l2, logger (snd (run env st)) = (INFO, l2) :: (INFO, l1) :: logger st.

(** The e-mail cells for which the guard [not email or pd.isna(email)]
    fires: no such column, an empty cell, an empty text. *)
Definition email_missing (row : Row) : Prop :=
  email row = None \/ email row = Some TNaN \/ email row = Some (TStr "").

(** The check answered [False] and did nothing but log one warning. *)
Definition skips_with (msg : string) (out : result pyret * State)
    (st : State) : Prop :=
  fst out = Ok RFalse /\
  logger (snd out) = (WARNING, msg) :: logger st /\
  smtp_sessions (snd out) = smtp_sessions st /\
  sleeps (snd out) = sleeps st /\
  email_sent_today (snd out) = email_sent_today st.

Definition asha_no_email : Row :=
  mkRow (Some (TStr "Asha")) (Some TNaN) (Some (DStr "15-03-1990"))
        (Some (DStr "15/03/2019")) (Some (DStr "2015-03-15")).

(** [s.startswith(p)] *)
Fixpoint starts_with (p s : string) : bool :=
  match p with
  | EmptyString => true
  | String a p' =>
      match s with
      | EmptyString => false
      | String b s' => Ascii.eqb a b && starts_with p' s'
      end
  end.

(** The birthdays a log reports as detected: its INFO lines that start with
    the text of the line [check_birthday] writes on a match. *)
Definition is_birthday_detection (entry : level * string) : bool :=
  match fst entry with
  | INFO => starts_with "🎂 Birthday detected: " (snd entry)
  | _ => false
  end.

Definition birthday_detections (st : State) : list (level * string) :=
  List.filter is_birthday_detection (logger st).

Definition no_format_matches (text : string) : Prop :=
  forall fmt, In fmt date_formats -> forall d, strptime text fmt <> Ok d.

Definition married_not_a_date : Row :=
  mkRow (Some (TStr "Ravi")) (Some (TStr "ravi@x.com")) None None
        (Some (DStr "not-a-date")).

(** The alternatives of a group, tried in order against [s], each followed
    by the rest of the pattern [k]. *)
Fixpoint try_alts (k : string -> groups -> option (groups * string))
    (d : directive) (s : string) (found : groups) (alts : list (list cls))
  : option (groups * string) :=
  match alts with
  | [] => None
  | a :: alts' =>
      match match_seq a s with
      | Some (m, r) =>
          match k r (set_group d m found) with
          | Some res => Some res
          | None => try_alts k d s found alts'
          end
      | None => try_alts k d s found alts'
      end
  end.

(** The groups found in a date written out: its day, month and year. *)
Definition written (x : date) : groups :=
  mkgroups (Some (two_digits (day x))) (Some (two_digits (month x)))
           (Some (four_digits (year x))).

(** ** Counting completed sessions *)

(** The sessions of a list that completed. *)
Definition completed (l : list session) : list session :=
  List.filter s_ok l.

(** How many sessions for an event have completed so far.  A session
    completes when the [try] block of [send_email] reaches its end; one that
    raises after [send_message], in [server.quit()], is not among them. *)
Definition completed_for (k : string) (st : State) : nat :=
  List.length
    (List.filter (fun s => String.eqb (s_event s) k) (completed (smtp_sessions st))).

(** How many sessions have completed so far for a recipient and an event.
    The recipient is the address as the workbook spells it: two spellings
    of one mailbox are two recipients. *)
Definition completed_to (e k : string) (st : State) : nat :=
  List.length
    (List.filter (fun s => String.eqb (s_to s) e && String.eqb (s_event s) k)
       (completed (smtp_sessions st))).

(** The session [send_email] opens for a message, as the configuration
    makes it. *)
Definition session_of (env : Env) (e subj html k : string) (ok : bool)
  : session :=
  mkSession (fst (smtp_server (config env))) (snd (smtp_server (config env)))
            (sender_email (config env)) e subj html k ok.

(** ** What a detector does *)

(** Does a resolved date fall on today's month and day? *)
Definition falls_today (env : Env) (d : option date) : bool :=
  match d with
  | Some d => (month d =? month (today env)) && (day d =? day (today env))
  | None => false
  end.

(** A result that makes [run] raise a counter. *)
Definition counted (r : result pyret) : bool :=
  match r with
  | Ok r => truthy r
  | Raise _ => false
  end.

(** A detector for event [k] on a row either leaves the server, the
    registry and the clock alone and is not counted, or it ends in one call
    of [send_email] to the row's e-mail, with three attempts, from a state
    that differs from the start only in its log. *)
Inductive detector_step (env : Env) (row : Row) (k : string) (st : State)
    (out : result pyret * State) : Prop :=
| step_quiet :
    smtp_sessions (snd out) = smtp_sessions st ->
    email_sent_today (snd out) = email_sent_today st ->
    sleeps (snd out) = sleeps st ->
    excel_reads (snd out) = excel_reads st ->
    counted (fst out) = false ->
    detector_step env row k st out
| step_send addr subj html st1 :
    usable_email (email row) = Some addr ->
    smtp_sessions st1 = smtp_sessions st ->
    email_sent_today st1 = email_sent_today st ->
    sleeps st1 = sleeps st ->
    excel_reads st1 = excel_reads st ->
    out = (Ok (fst (send_email env addr subj html k 3 st1)),
           snd (send_email env addr subj html k 3 st1)) ->
    detector_step env row k st out.

(** The counters moved by the sessions that completed between two states. *)
Definition counters_follow (c0 : counters) (st0 : State) (c : counters)
    (st : State) : Prop :=
  birthday_count c - birthday_count c0
  = Z.of_nat (completed_for "birthday" st) - Z.of_nat (completed_for "birthday" st0) /\
  work_anniversary_count c - work_anniversary_count c0
  = Z.of_nat (completed_for "work_anniversary" st)
    - Z.of_nat (completed_for "work_anniversary" st0) /\
  marriage_anniversary_count c - marriage_anniversary_count c0
  = Z.of_nat (completed_for "marriage_anniversary" st)
    - Z.of_nat (completed_for "marriage_anniversary" st0).

(** ** More sample data *)

Definition env_on (day : date) (outcome : nat -> option exn)
    (files : string -> option string) (rows : list Row) : Env :=
  mkEnv sample_config day 16 49 outcome files (Ok rows)
        (mkdatetime day 16 49 0) (mkdatetime day 16 49 30).

(** Joined on 1 June 2019, married on 1 June 2021, born on 1 June 1995. *)
Definition meera : Row :=
  mkRow (Some (TStr "Meera")) (Some (TStr "meera@x.com"))
        (Some (DStr "1995-06-01")) (Some (DStr "01/06/2019"))
        (Some (DStr "01.06.2021")).

(** Born on 29 February 2000. *)
Definition leapling : Row :=
  mkRow (Some (TStr "Leo")) (Some (TStr "leo@x.com"))
        (Some (DStr "29-02-2000")) None None.

Definition no_files : string -> option string := fun _ => None.

(** ** The look of a text that a format reads *)

(** The separator [c] stands second in the text, or third after a digit:
    where it must be after a day of one or two characters. *)
Definition separated_by (c : ascii) (s : string) : bool :=
  match s with
  | String _ (String c2 r) =>
      Ascii.eqb c c2
      || (digit c2 &&
          match r with
          | String c3 _ => Ascii.eqb c c3
          | EmptyString => false
          end)
  | _ => false
  end.

(** The text starts with four digits. *)
Definition year_first (s : string) : bool :=
  match s with
  | String c1 (String c2 (String c3 (String c4 _))) =>
      digit c1 && digit c2 && digit c3 && digit c4
  | _ => false
  end.

(** What a text must look like for each of the four formats to read it. *)
Definition looks_like (fmt : string) (s : string) : bool :=
  if String.eqb fmt "%d-%m-%Y" then separated_by "-" s
  else if String.eqb fmt "%d/%m/%Y" then separated_by "/" s
  else if String.eqb fmt "%Y-%m-%d" then year_first s
  else if String.eqb fmt "%d.%m.%Y" then separated_by "." s
  else false.

(** ** Where the mails go *)

(** A session that belongs to a row: to the row's usable e-mail, for one of
    the three events, from the configured sender through the configured
    server. *)
Definition mail_of_row (env : Env) (row : Row) (s : session) : Prop :=
  usable_email (email row) = Some (s_to s) /\
  (s_event s = "birthday" \/ s_event s = "work_anniversary"
   \/ s_event s = "marriage_anniversary") /\
  (s_host s, s_port s) = smtp_server (config env) /\
  s_from s = sender_email (config env).

(** ** Dates written without leading zeros *)

(** A day or month as a spreadsheet user types it: "5" rather than "05". *)
Definition short_digits (n : Z) : string :=
  if n <? 10 then String (digit_char n) EmptyString else two_digits n.

Fixpoint render_short (p : list item) (x : date) : string :=
  match p with
  | [] => EmptyString
  | Lit c :: p' => String c (render_short p' x)
  | Group Dd :: p' => short_digits (day x) +:+ render_short p' x
  | Group Dm :: p' => short_digits (month x) +:+ render_short p' x
  | Group DY :: p' => four_digits (year x) +:+ render_short p' x
  end.

Definition written_short (x : date) (fmt : string) : string :=
  match pattern fmt with
  | Some p => render_short p x
  | None => EmptyString
  end.

(** The groups found in a date written that way. *)
Definition written_short_groups (x : date) : groups :=
  mkgroups (Some (short_digits (day x))) (Some (short_digits (month x)))
           (Some (four_digits (year x))).

(** A row whose name cell is empty, born on 1 June 1995 and joined on
    1 June 2019. *)
Definition nameless : Row :=
  mkRow (Some TNaN) (Some (TStr "someone@x.com")) (Some (DStr "1995-06-01"))
        (Some (DStr "01/06/2019")) None.

(** * Properties *)

(** ** The delivery engine *)

Section Delivery.

Variable env : Env.
Variables recipient_email subject html_content event_type : string.
Variable max_retries : Z.

Local Abbreviation key := (recipient_email, event_type).
Local Abbreviation loop :=
  (attempt_loop env recipient_email subject html_content event_type
     max_retries).

Lemma py_range_nil lo hi : hi <= lo -> py_range lo hi = [].
Proof.
  intros H. unfold py_range.
  replace (Z.to_nat (hi - lo)) with O by lia. reflexivity.
Qed.

Lemma py_range_cons lo hi :
  lo < hi -> py_range lo hi = lo :: py_range (lo + 1) hi.
Proof.
  intros H. unfold py_range.
  replace (Z.to_nat (hi - lo)) with (S (Z.to_nat (hi - (lo + 1)))) by lia.
  cbn [seq List.map]. f_equal; [lia |].
  rewrite <- seq_shift, List.map_map.
  apply List.map_ext. intros i. lia.
Qed.

Lemma repeat_snoc {A} (x : A) n l : repeat x n ++ x :: l = x :: repeat x n ++ l.
Proof. induction n as [|n IH]; cbn; [reflexivity | now rewrite IH]. Qed.

(** A run of [j] failing sessions followed by one that completes. *)
Lemma attempt_loop_succeeds (j : nat) :
  forall (a : Z) (st : State),
    a + Z.of_nat j <= max_retries ->
    (forall i, (i < j)%nat ->
       smtp_outcome env (List.length (smtp_sessions st) + i)%nat <> None) ->
    smtp_outcome env (List.length (smtp_sessions st) + j)%nat = None ->
    let out := loop (py_range a (max_retries + 1)) st in
    fst out = RTrue /\
    List.length (smtp_sessions (snd out))
      = (List.length (smtp_sessions st) + j + 1)%nat /\
    sleeps (snd out) = repeat 2 j ++ sleeps st /\
    email_sent_today (snd out) = {[ key ]} ∪ email_sent_today st.
Proof.
  induction j as [|j IH]; intros a st Hle Hfail Hok.
  - rewrite py_range_cons by lia. cbn [attempt_loop].
    rewrite Nat.add_0_r in Hok. rewrite Hok. cbn.
    repeat split; lia.
  - rewrite py_range_cons by lia. cbn [attempt_loop].
    specialize (Hfail O ltac:(lia)) as Hnow. rewrite Nat.add_0_r in Hnow.
    destruct (smtp_outcome env (List.length (smtp_sessions st))) as [e|] eqn:E;
      [clear Hnow | congruence].
    replace (a <? max_retries) with true by (symmetry; apply Z.ltb_lt; lia).
    match goal with |- context [loop _ ?s] => set (st1 := s) end.
    assert (Hlen : List.length (smtp_sessions st1)
                   = S (List.length (smtp_sessions st))) by reflexivity.
    destruct (IH (a + 1) st1) as (Hr & Hn & Hs & Hk).
    + lia.
    + intros i Hi. rewrite Hlen.
      replace (S (List.length (smtp_sessions st)) + i)%nat
        with (List.length (smtp_sessions st) + S i)%nat by lia.
      apply Hfail. lia.
    + rewrite Hlen.
      replace (S (List.length (smtp_sessions st)) + j)%nat
        with (List.length (smtp_sessions st) + S j)%nat by lia.
      exact Hok.
    + cbv zeta. rewrite Hr, Hn, Hs, Hk, Hlen.
      split; [reflexivity |]. split; [lia |]. split; [| reflexivity].
      subst st1. cbn [sleeps sleep]. now rewrite repeat_snoc.
Qed.

(** Every remaining session fails: the loop gives up after the last one. *)
Lemma attempt_loop_exhausted (j : nat) :
  forall (a : Z) (st : State),
    a + Z.of_nat j = max_retries ->
    (forall i, (i <= j)%nat ->
       smtp_outcome env (List.length (smtp_sessions st) + i)%nat <> None) ->
    let out := loop (py_range a (max_retries + 1)) st in
    fst out = RFalse /\
    List.length (smtp_sessions (snd out))
      = (List.length (smtp_sessions st) + j + 1)%nat /\
    sleeps (snd out) = repeat 2 j ++ sleeps st /\
    email_sent_today (snd out) = email_sent_today st /\
    exists rest,
      logger (snd out)
      = (ERROR, "✗ Failed to send email to " +:+ recipient_email +:+ " after "
                +:+ str max_retries +:+ " attempts") :: rest.
Proof.
  induction j as [|j IH]; intros a st Hle Hfail.
  - rewrite py_range_cons by lia. cbn [attempt_loop].
    specialize (Hfail O ltac:(lia)) as Hnow. rewrite Nat.add_0_r in Hnow.
    destruct (smtp_outcome env (List.length (smtp_sessions st))) as [e|] eqn:E;
      [clear Hnow | congruence].
    replace (a <? max_retries) with false by (symmetry; apply Z.ltb_ge; lia).
    cbn. split; [reflexivity |]. split; [lia |]. eauto.
  - rewrite py_range_cons by lia. cbn [attempt_loop].
    specialize (Hfail O ltac:(lia)) as Hnow. rewrite Nat.add_0_r in Hnow.
    destruct (smtp_outcome env (List.length (smtp_sessions st))) as [e|] eqn:E;
      [clear Hnow | congruence].
    replace (a <? max_retries) with true by (symmetry; apply Z.ltb_lt; lia).
    match goal with |- context [loop _ ?s] => set (st1 := s) end.
    assert (Hlen : List.length (smtp_sessions st1)
                   = S (List.length (smtp_sessions st))) by reflexivity.
    destruct (IH (a + 1) st1) as (Hr & Hn & Hs & Hk & Hl).
    + lia.
    + intros i Hi. rewrite Hlen.
      replace (S (List.length (smtp_sessions st)) + i)%nat
        with (List.length (smtp_sessions st) + S i)%nat by lia.
      apply Hfail. lia.
    + cbv zeta. rewrite Hr, Hn, Hs, Hk, Hlen.
      split; [reflexivity |]. split; [lia |]. split; [| split; [reflexivity | exact Hl]].
      subst st1. cbn [sleeps sleep]. now rewrite repeat_snoc.
Qed.

End Delivery.

(** ** The registry and the sessions of a run *)

Lemma attempt_loop_effect env e subj html k max attempts :
  forall st,
    exists new,
      send_effect e k (attempt_loop env e subj html k max attempts st) st new.
Proof.
  induction attempts as [|a attempts IH]; intros st.
  - exists []. split; cbn; try reflexivity; [constructor |].
    split; [discriminate | intros H; inversion H].
  - cbn [attempt_loop].
    destruct (smtp_outcome env (List.length (smtp_sessions st))) as [err|].
    + destruct (a <? max).
      * match goal with |- context [attempt_loop _ _ _ _ _ _ _ ?s] =>
          destruct (IH s) as [new [Hs Hm Ht Hr Hx]]
        end.
        cbn [smtp_sessions sleep log record_session email_sent_today
             excel_reads] in Hs, Hr, Hx.
        match type of Hs with _ = new ++ ?s :: _ => exists (new ++ [s]) end.
        split.
        -- rewrite Hs, <- app_assoc. reflexivity.
        -- apply Forall_app. split; [exact Hm |].
           constructor; [cbn; auto | constructor].
        -- rewrite Ht, Exists_app, Exists_cons, Exists_nil. cbn.
           intuition discriminate.
        -- exact Hr.
        -- exact Hx.
      * eexists [_]. split; cbn; try reflexivity.
        -- constructor; [cbn; auto | constructor].
        -- rewrite Exists_cons, Exists_nil. cbn. intuition discriminate.
    + eexists [_]. split; cbn; try reflexivity.
      * constructor; [cbn; auto | constructor].
      * rewrite Exists_cons. cbn. intuition.
Qed.

Lemma send_email_effect env e subj html k max st :
  exists new, send_effect e k (send_email env e subj html k max st) st new.
Proof.
  unfold send_email. case_bool_decide as Hin.
  - exists []. split; cbn; try reflexivity; [constructor |].
    split; [discriminate | intros H; inversion H].
  - apply attempt_loop_effect.
Qed.

Lemma delivered_app key st st' new :
  smtp_sessions st' = new ++ smtp_sessions st ->
  delivered key st' <->
  Exists (fun s => (s_to s, s_event s) = key /\ s_ok s = true) new
  \/ delivered key st.
Proof. intros H. unfold delivered. rewrite H. apply Exists_app. Qed.

Lemma send_email_keeps_exact env e subj html k max st :
  registry_exact st ->
  registry_exact (snd (send_email env e subj html k max st)).
Proof.
  unfold registry_exact. intros Hinv key.
  destruct (send_email_effect env e subj html k max st)
    as [new [Hs Hm Ht Hr Hx]].
  rewrite (delivered_app key _ _ _ Hs), Hr, <- (Hinv key).
  assert (Hnew :
    Exists (fun s => (s_to s, s_event s) = key /\ s_ok s = true) new
    <-> key = (e, k) /\ fst (send_email env e subj html k max st) = RTrue).
  { rewrite Ht, !Exists_exists. split.
    - intros (s & Hin & Hk & Hok). split; [| eauto].
      rewrite Forall_forall in Hm. destruct (Hm s Hin) as [<- <-]. now symmetry.
    - intros (-> & s & Hin & Hok). exists s. repeat split; auto.
      rewrite Forall_forall in Hm. destruct (Hm s Hin) as [-> ->]. reflexivity. }
  rewrite Hnew.
  destruct (fst (send_email env e subj html k max st)); cbn.
  - rewrite elem_of_union, elem_of_singleton. tauto.
  - split; [auto | intros [[_ ?]|?]; [discriminate | auto]].
  - split; [auto | intros [[_ ?]|?]; [discriminate | auto]].
Qed.

(** ** [parse_date] never reaches its outer handler *)

Lemma strptime_raises text fmt e :
  strptime text fmt = Raise e -> exists msg, e = ValueError msg.
Proof.
  unfold strptime.
  destruct (pattern fmt) as [p|]; [| intros [= <-]; eauto].
  destruct (re_match p text no_groups) as [[found rest]|];
    [| intros [= <-]; eauto].
  destruct rest; [| intros [= <-]; eauto].
  destruct (valid_date _ _ _); [discriminate | intros [= <-]; eauto].
Qed.

Lemma try_formats_returns text fmts : exists r, try_formats text fmts = Ok r.
Proof.
  induction fmts as [|fmt fmts IH]; cbn; [eauto |].
  destruct (strptime text fmt) as [d|e] eqn:E; [eauto |].
  destruct (strptime_raises _ _ _ E) as [msg ->]. exact IH.
Qed.

Lemma parse_date_silent v st : snd (parse_date v st) = st.
Proof.
  unfold parse_date. destruct (isna v); [reflexivity |].
  destruct v as [[| t | text]|]; try reflexivity.
  destruct (try_formats_returns text date_formats) as [r ->]. reflexivity.
Qed.

Lemma parse_date_eq v st : parse_date v st = (fst (parse_date v st), st).
Proof.
  rewrite <- (parse_date_silent v st) at 3. apply surjective_pairing.
Qed.

Lemma init_reachable cfg now outcome files book at_run at_end :
  reachable (fst (init cfg now outcome files book at_run at_end))
            (snd (init cfg now outcome files book at_run at_end)).
Proof. apply reach_start; reflexivity. Qed.

Lemma reachable_exact env st : reachable env st -> registry_exact st.
Proof.
  induction 1 as [st Hr Hs | st l msg _ IH | st _ IH | st e subj html k max _ IH].
  - intros key. unfold delivered. rewrite Hr, Hs, Exists_nil.
    split; [intros H; now apply not_elem_of_empty in H | tauto].
  - exact IH.
  - exact IH.
  - now apply send_email_keeps_exact.
Qed.

Lemma evolves_reachable env st st' :
  reachable env st -> evolves env st st' -> reachable env st'.
Proof. intros H. induction 1; [assumption | | ]; now constructor. Qed.

Lemma evolves_reads env st st' :
  evolves env st st' -> excel_reads st' = excel_reads st.
Proof.
  induction 1 as [| st' l msg _ IH | st' e subj html k max _ IH];
    [reflexivity | exact IH |].
  destruct (send_email_effect env e subj html k max st') as [new [_ _ _ _ Hx]].
  congruence.
Qed.

Lemma load_email_template_evolves env name st0 st :
  evolves env st0 st ->
  evolves env st0 (snd (load_email_template env name st)).
Proof.
  intros H. unfold load_email_template.
  destruct (template_file env _); cbn; [exact H | now constructor].
Qed.

Ltac evolve_detector :=
  match goal with
  | |- evolves _ _ (snd (let '(_, _) := parse_date ?v ?st in _)) =>
      rewrite (parse_date_eq v st); destruct (fst (parse_date v st))
  end;
  cbn [snd]; try assumption;
  match goal with |- context [if ?b then _ else _] => destruct b end;
  cbn [snd]; try assumption;
  match goal with |- context [usable_email ?e] => destruct (usable_email e) end;
  cbn [snd]; [| now apply ev_log];
  match goal with
  | |- context [load_email_template ?env ?n ?s] =>
      pose proof (fun st0 => load_email_template_evolves env n st0 s);
      destruct (load_email_template env n s) as [[template|err] st']
  end;
  cbn [snd] in *; [| eauto using ev_log];
  match goal with |- context [replace_name ?t ?n] => destruct (replace_name t n) end;
  cbn [snd]; [| eauto using ev_log];
  match goal with
  | |- context [send_email ?env ?a ?s ?h ?k ?m ?st] =>
      pose proof (fun st0 => ev_send env st0 st a s h k m);
      destruct (send_email env a s h k m st)
  end;
  cbn [snd] in *; eauto using ev_log.

Lemma check_birthday_evolves env row st0 st :
  evolves env st0 st -> evolves env st0 (snd (check_birthday env row st)).
Proof. intros H. unfold check_birthday. evolve_detector. Qed.

Lemma check_work_anniversary_evolves env row st0 st :
  evolves env st0 st ->
  evolves env st0 (snd (check_work_anniversary env row st)).
Proof. intros H. unfold check_work_anniversary. evolve_detector. Qed.

Lemma check_marriage_anniversary_evolves env row st0 st :
  evolves env st0 st ->
  evolves env st0 (snd (check_marriage_anniversary env row st)).
Proof. intros H. unfold check_marriage_anniversary. evolve_detector. Qed.

Lemma process_row_evolves env index row c st0 st :
  evolves env st0 st ->
  evolves env st0 (snd (process_row env index row c st)).
Proof.
  intros H. unfold process_row.
  pose proof (check_birthday_evolves env row st0 st H) as H1.
  destruct (check_birthday env row st) as [[r1|e1] st1]; cbn [snd] in *;
    [| now apply ev_log].
  pose proof (check_work_anniversary_evolves env row st0 st1 H1) as H2.
  destruct (check_work_anniversary env row st1) as [[r2|e2] st2];
    cbn [snd] in *; [| now apply ev_log].
  pose proof (check_marriage_anniversary_evolves env row st0 st2 H2) as H3.
  destruct (check_marriage_anniversary env row st2) as [[r3|e3] st3];
    cbn [snd] in *; [exact H3 | now apply ev_log].
Qed.

Lemma iterrows_evolves env df :
  forall index c st0 st,
    evolves env st0 st ->
    evolves env st0 (snd (iterrows env index df c st)).
Proof.
  induction df as [|row df IH]; intros index c st0 st H; cbn [iterrows];
    [exact H |].
  pose proof (process_row_evolves env index row c st0 st H) as H1.
  destruct (process_row env index row c st) as [c1 st1]. now apply IH.
Qed.

(** The two ways [run] can go: the gate is closed and two lines are logged,
    or the workbook is read once and everything after is logging and
    sending. *)
Lemma run_shape env st :
  (run env st
   = (Ok tt,
      log INFO "Emails will only be sent at 16:49PM IST"
        (log INFO ("Not scheduled time. Current time: "
                   +:+ fmt_hm (clock_at_run env) +:+ " IST. Target time: "
                   +:+ fmt_02d (target_hour env) +:+ ":"
                   +:+ fmt_02d (target_minute env) +:+ " IST") st)) /\
   (hour (clock_at_run env) <> target_hour env
    \/ minute (clock_at_run env) <> target_minute env))
  \/
  (evolves env
     (count_read
        (log INFO ("Scheduled time reached: " +:+ fmt_hm (clock_at_run env)
                   +:+ " IST - Processing emails...") st))
     (snd (run env st)) /\
   hour (clock_at_run env) = target_hour env /\
   minute (clock_at_run env) = target_minute env).
Proof.
  unfold run.
  destruct (hour (clock_at_run env) =? target_hour env) eqn:Eh;
    [| left; split; [reflexivity | left; now apply Z.eqb_neq]].
  destruct (minute (clock_at_run env) =? target_minute env) eqn:Em;
    [| left; split; [reflexivity | right; now apply Z.eqb_neq]].
  right. apply Z.eqb_eq in Eh, Em. split; [| auto]. cbn [negb orb].
  unfold load_employee_data.
  destruct (workbook env) as [df|e].
  - match goal with |- context [iterrows ?e ?i ?d ?c ?s] =>
      pose proof (fun st0 => iterrows_evolves e d i c st0 s) as Hi;
      destruct (iterrows e i d c s) as [c' st']
    end.
    cbn [snd] in *. unfold summary. repeat apply ev_log. apply Hi.
    apply ev_log, ev_refl.
  - destruct e; cbn [snd]; apply ev_log, ev_log, ev_refl.
Qed.

Lemma run_reach env st :
  reachable env st -> reachable env (snd (run env st)).
Proof.
  intros H. destruct (run_shape env st) as [[-> _] | [Hev _]].
  - cbn [snd]. now repeat apply reach_log.
  - eapply evolves_reachable; [| exact Hev].
    now apply reach_read, reach_log.
Qed.

(** ** Claims about [send_email] *)

(** C1, as the code has it.  A request whose key (recipient, event) is
    already in the registry is answered [False] at once: the only effect is
    one warning that a duplicate was prevented; no session is opened and the
    registry stays as it is.  Hence once a delivery for a key has returned
    [True], every later delivery for that key in the run (any state whose
    registry still holds what it held then) opens no session. *)
Theorem send_email_suppresses_duplicate :
  (forall env e k st subj html max,
     (e, k) ∈ email_sent_today st ->
     let out := send_email env e subj html k max st in
     out = (RFalse,
            log WARNING ("Duplicate email prevented for " +:+ e +:+ " - " +:+ k)
                st) /\
     smtp_sessions (snd out) = smtp_sessions st /\
     sleeps (snd out) = sleeps st /\
     email_sent_today (snd out) = email_sent_today st) /\
  (forall env e k st subj1 html1 max1,
     fst (send_email env e subj1 html1 k max1 st) = RTrue ->
     forall st2,
       email_sent_today (snd (send_email env e subj1 html1 k max1 st))
         ⊆ email_sent_today st2 ->
       forall subj2 html2 max2,
         fst (send_email env e subj2 html2 k max2 st2) = RFalse /\
         smtp_sessions (snd (send_email env e subj2 html2 k max2 st2))
           = smtp_sessions st2).
Proof.
  assert (Hdup : forall env e k st subj html max,
    (e, k) ∈ email_sent_today st ->
    send_email env e subj html k max st
    = (RFalse,
       log WARNING ("Duplicate email prevented for " +:+ e +:+ " - " +:+ k) st)).
  { intros. unfold send_email. case_bool_decide; [reflexivity | contradiction]. }
  split.
  - intros env e k st subj html max Hin. cbv zeta. rewrite Hdup by exact Hin.
    cbn. auto.
  - intros env e k st subj1 html1 max1 Htrue st2 Hsub subj2 html2 max2.
    destruct (send_email_effect env e subj1 html1 k max1 st)
      as [new [_ _ _ Hr _]].
    rewrite Htrue in Hr. cbn in Hr.
    rewrite Hdup; [cbn; auto |].
    apply Hsub. rewrite Hr. apply elem_of_union_l, elem_of_singleton.
    reflexivity.
Qed.

Lemma send_email_suppresses_duplicate_witness :
  ("asha@x.com", "birthday") ∈ email_sent_today asha_sent /\
  fst (send_email (sample_env always_completes [] at_1649)
         "asha@x.com" "Hi" "<p>Hi</p>" "birthday" 3 fresh) = RTrue /\
  fst (send_email (sample_env always_completes [] at_1649)
         "asha@x.com" "Hi again" "<p>Hi</p>" "birthday" 3 asha_sent) = RFalse /\
  smtp_sessions
    (snd (send_email (sample_env always_completes [] at_1649)
            "asha@x.com" "Hi again" "<p>Hi</p>" "birthday" 3 asha_sent))
  = smtp_sessions asha_sent.
Proof.
  assert (Hin : ("asha@x.com", "birthday") ∈ email_sent_today asha_sent).
  { apply elem_of_union_l, elem_of_singleton. reflexivity. }
  assert (Hsent :
    fst (send_email (sample_env always_completes [] at_1649)
           "asha@x.com" "Hi" "<p>Hi</p>" "birthday" 3 fresh) = RTrue)
    by reflexivity.
  split; [exact Hin |]. split; [exact Hsent |].
  destruct send_email_suppresses_duplicate as [Hfirst Hsecond].
  split.
  - apply (Hsecond _ _ _ fresh "Hi" "<p>Hi</p>" 3 Hsent asha_sent).
    reflexivity.
  - apply (Hfirst (sample_env always_completes [] at_1649)
             "asha@x.com" "birthday" asha_sent "Hi again" "<p>Hi</p>" 3 Hin).
Defined.

(** C1 as it is stated speaks of any two detections of a key.  The
    registry records a key only when a session for it completed: after a first
    delivery that used up its three attempts, a second detection of the same
    key opens a session again.  Here the server refuses the first three
    sessions of the run and accepts the fourth. *)
Lemma second_delivery_after_exhausted_first :
  let env := sample_env (fails_first 3) [asha; asha] at_1649 in
  let first := send_email env "asha@x.com" "Hi" "<p>Hi</p>" "birthday" 3 fresh in
  let second :=
    send_email env "asha@x.com" "Hi" "<p>Hi</p>" "birthday" 3 (snd first) in
  fst first = RFalse /\
  List.map s_ok (smtp_sessions (snd first)) = [false; false; false] /\
  email_sent_today (snd first) = ∅ /\
  fst second = RTrue /\
  List.map s_ok (smtp_sessions (snd second)) = [true; false; false; false] /\
  List.map (fun s => (s_to s, s_event s, s_ok s))
           (smtp_sessions (snd (run env fresh)))
  = [("asha@x.com", "birthday", true); ("asha@x.com", "birthday", false);
     ("asha@x.com", "birthday", false); ("asha@x.com", "birthday", false)].
Proof. repeat split. Qed.

(** C2.  With [max_retries >= 1] and [1 <= N <= max_retries], for a key not
    yet in the registry: when the next [N - 1] sessions fail and the one
    after completes, [send_email] returns [True], opens exactly [N] sessions
    (all for this recipient and event), sleeps exactly [N - 1] times, each
    time for 2 seconds, and adds the key to the registry. *)
Theorem send_email_retry_law env e subj html k max (N : nat) st :
  1 <= max ->
  (1 <= N)%nat ->
  Z.of_nat N <= max ->
  (e, k) ∉ email_sent_today st ->
  (forall i, (i < N - 1)%nat ->
     smtp_outcome env (List.length (smtp_sessions st) + i)%nat <> None) ->
  smtp_outcome env (List.length (smtp_sessions st) + (N - 1))%nat = None ->
  let out := send_email env e subj html k max st in
  fst out = RTrue /\
  (exists new,
     smtp_sessions (snd out) = new ++ smtp_sessions st /\
     List.length new = N /\
     Forall (fun s => s_to s = e /\ s_event s = k) new) /\
  sleeps (snd out) = repeat 2 (N - 1) ++ sleeps st /\
  email_sent_today (snd out) = {[ (e, k) ]} ∪ email_sent_today st.
Proof.
  intros Hmax HN HNmax Hfresh Hfail Hok out.
  destruct (send_email_effect env e subj html k max st)
    as [new [Hs Hm _ _ _]].
  fold out in Hs.
  assert (Hloop :
    out = attempt_loop env e subj html k max (py_range 1 (max + 1)) st).
  { subst out. unfold send_email.
    case_bool_decide; [contradiction | reflexivity]. }
  destruct (attempt_loop_succeeds env e subj html k max (N - 1) 1 st)
    as (Hr & Hn & Hsl & Hk); [lia | exact Hfail | exact Hok |].
  rewrite <- Hloop in Hr, Hn, Hsl, Hk.
  split; [exact Hr |]. split; [| split; [exact Hsl | exact Hk]].
  exists new. split; [exact Hs |]. split; [| exact Hm].
  rewrite Hs, length_app in Hn. lia.
Qed.

Lemma send_email_retry_law_witness :
  let env := sample_env (fails_first 1) [] at_1649 in
  let out := send_email env "asha@x.com" "Hi" "<p>Hi</p>" "birthday" 3 fresh in
  fst out = RTrue /\
  List.length (smtp_sessions (snd out)) = 2%nat /\
  sleeps (snd out) = [2] /\
  email_sent_today (snd out) = {[ ("asha@x.com", "birthday") ]} ∪ ∅.
Proof.
  intros env out.
  destruct (send_email_retry_law env "asha@x.com" "Hi" "<p>Hi</p>" "birthday"
              3 2 fresh) as (Hr & (new & Hs & Hn & _) & Hsl & Hk).
  - lia.
  - lia.
  - lia.
  - apply not_elem_of_empty.
  - intros i Hi. replace i with O by lia. discriminate.
  - reflexivity.
  - fold out in Hr, Hs, Hsl, Hk.
    split; [exact Hr |]. split; [| split; [exact Hsl | exact Hk]].
    rewrite Hs, length_app, Hn. reflexivity.
Defined.

(** C3.  With [max_retries >= 1], for a key not yet in the registry: when
    each of the next [max_retries] sessions fails, [send_email] returns
    [False], opens exactly [max_retries] sessions, leaves the registry as it
    was, and its last log entry is the error that the mail could not be
    sent. *)
Theorem send_email_retry_exhaustion env e subj html k max st :
  1 <= max ->
  (e, k) ∉ email_sent_today st ->
  (forall i, (Z.of_nat i < max) ->
     smtp_outcome env (List.length (smtp_sessions st) + i)%nat <> None) ->
  let out := send_email env e subj html k max st in
  fst out = RFalse /\
  (exists new,
     smtp_sessions (snd out) = new ++ smtp_sessions st /\
     Z.of_nat (List.length new) = max /\
     Forall (fun s => s_to s = e /\ s_event s = k /\ s_ok s = false) new) /\
  sleeps (snd out) = repeat 2 (Z.to_nat (max - 1)) ++ sleeps st /\
  email_sent_today (snd out) = email_sent_today st /\
  exists rest,
    logger (snd out)
    = (ERROR, "✗ Failed to send email to " +:+ e +:+ " after " +:+ str max
              +:+ " attempts") :: rest.
Proof.
  intros Hmax Hfresh Hfail out.
  destruct (send_email_effect env e subj html k max st)
    as [new [Hs Hm Ht _ _]].
  fold out in Hs, Ht.
  assert (Hloop :
    out = attempt_loop env e subj html k max (py_range 1 (max + 1)) st).
  { subst out. unfold send_email.
    case_bool_decide; [contradiction | reflexivity]. }
  destruct (attempt_loop_exhausted env e subj html k max
              (Z.to_nat (max - 1)) 1 st) as (Hr & Hn & Hsl & Hk & Hl).
  { lia. }
  { intros i Hi. apply Hfail. lia. }
  rewrite <- Hloop in Hr, Hn, Hsl, Hk, Hl.
  split; [exact Hr |].
  split; [| split; [exact Hsl | split; [exact Hk | exact Hl]]].
  exists new. split; [exact Hs |]. split.
  - rewrite Hs, length_app in Hn. lia.
  - rewrite Forall_forall in Hm. apply Forall_forall. intros s Hin.
    destruct (Hm s Hin) as [H1 H2]. repeat split; auto.
    destruct (s_ok s) eqn:E; [| reflexivity].
    assert (fst out = RTrue) by (apply Ht, Exists_exists; eauto).
    congruence.
Qed.

Lemma send_email_retry_exhaustion_witness :
  let env := sample_env never_completes [] at_1649 in
  let out := send_email env "asha@x.com" "Hi" "<p>Hi</p>" "birthday" 3 fresh in
  fst out = RFalse /\
  List.length (smtp_sessions (snd out)) = 3%nat /\
  email_sent_today (snd out) = ∅ /\
  exists rest,
    logger (snd out)
    = (ERROR, "✗ Failed to send email to asha@x.com after 3 attempts") :: rest.
Proof.
  intros env out.
  destruct (send_email_retry_exhaustion env "asha@x.com" "Hi" "<p>Hi</p>"
              "birthday" 3 fresh)
    as (Hr & (new & Hs & Hn & _) & _ & Hk & Hl).
  - lia.
  - apply not_elem_of_empty.
  - intros i _. discriminate.
  - fold out in Hr, Hs, Hk, Hl.
    split; [exact Hr |]. split; [| split; [exact Hk | exact Hl]].
    rewrite Hs, length_app. cbn. lia.
Defined.

(** C9.  With [max_retries <= 0] and a key not in the registry the loop body
    never runs: [send_email] returns [None], neither [True] nor [False], and
    changes nothing. *)
Theorem send_email_no_attempts env e subj html k max st :
  max <= 0 ->
  (e, k) ∉ email_sent_today st ->
  send_email env e subj html k max st = (RNone, st).
Proof.
  intros Hmax Hfresh. unfold send_email.
  case_bool_decide; [contradiction |].
  rewrite py_range_nil by lia. reflexivity.
Qed.

Lemma send_email_no_attempts_witness :
  send_email (sample_env always_completes [] at_1649)
    "asha@x.com" "Hi" "<p>Hi</p>" "birthday" 0 fresh = (RNone, fresh).
Proof.
  apply send_email_no_attempts; [lia | apply not_elem_of_empty].
Defined.

(** C10.  In every state of a run the registry holds exactly the keys for
    which a session has completed.  A call of [send_email] from such a state
    leads to such a state again; the sessions it opens are all for its own
    recipient and event; it returns [True] exactly when one of them
    completed; and the registry afterwards is the registry before, with the
    call's own key added exactly in that case. *)
Theorem registry_tracks_completed_sessions env st :
  reachable env st ->
  registry_exact st /\
  registry_exact (snd (run env st)) /\
  forall e subj html k max,
    let out := send_email env e subj html k max st in
    registry_exact (snd out) /\
    email_sent_today st ⊆ email_sent_today (snd out) /\
    exists new, send_effect e k out st new.
Proof.
  intros H. split; [now apply (reachable_exact env) |].
  split; [now apply (reachable_exact env), run_reach |].
  intros e subj html k max out.
  split; [now apply (reachable_exact env), reach_send |].
  destruct (send_email_effect env e subj html k max st) as [new Heff].
  split; [| now exists new].
  destruct Heff as [_ _ _ Hr _]. fold out in Hr. rewrite Hr.
  destruct (truthy (fst out)); [apply union_subseteq_r | reflexivity].
Qed.

Lemma registry_tracks_completed_sessions_witness :
  reachable (sample_env always_completes [] at_1649) asha_sent /\
  registry_exact asha_sent.
Proof.
  assert (H : reachable (sample_env always_completes [] at_1649) asha_sent).
  { exact (reach_send _ fresh _ _ _ _ _ (reach_start _ fresh eq_refl eq_refl)). }
  split; [exact H |].
  exact (proj1 (registry_tracks_completed_sessions _ _ H)).
Defined.

(** ** The gate of [run] *)

(** C8.  [run] reads the workbook exactly when the hour and the minute of
    the clock equal the target hour and minute; at any other time it is a
    no-op that logs two lines and does not read the workbook, in particular
    one minute before and one minute after the target. *)
Theorem run_gate_exact env st :
  (excel_reads (snd (run env st)) = S (excel_reads st) <-> gate_open env) /\
  (~ gate_open env -> no_op env st) /\
  (forall d, d = 1 \/ d = -1 ->
     (minute_of_day (hour (clock_at_run env)) (minute (clock_at_run env))
      - minute_of_day (target_hour env) (target_minute env) - d) mod 1440 = 0 ->
     no_op env st).
Proof.
  assert (Hclosed : ~ gate_open env -> no_op env st).
  { intros Hne. destruct (run_shape env st) as [[Hrun _] | [_ Hopen]];
      [| contradiction].
    unfold no_op. rewrite Hrun. cbn. repeat split; eauto. }
  split; [| split; [exact Hclosed |]].
  - destruct (run_shape env st) as [[Hrun Hne] | [Hev Hopen]].
    + rewrite Hrun. cbn. split; [lia |].
      intros [Hh Hm]. destruct Hne; contradiction.
    + split; [intros _; exact Hopen | intros _].
      now rewrite (evolves_reads _ _ _ Hev).
  - intros d Hd Hmod. apply Hclosed. intros [Hh Hm].
    rewrite Hh, Hm in Hmod.
    replace (minute_of_day (target_hour env) (target_minute env)
             - minute_of_day (target_hour env) (target_minute env) - d)
      with (- d) in Hmod by lia.
    destruct Hd as [-> | ->]; vm_compute in Hmod; discriminate.
Qed.

Lemma run_gate_exact_witness :
  let before := mkdatetime (mkdate 2024 3 15) 16 48 59 in
  let after := mkdatetime (mkdate 2024 3 15) 16 50 0 in
  no_op (sample_env always_completes [asha] before) fresh /\
  no_op (sample_env always_completes [asha] after) fresh /\
  excel_reads (snd (run (sample_env always_completes [asha] at_1649) fresh))
  = 1%nat.
Proof.
  intros before after. split; [| split].
  - apply (proj2 (proj2 (run_gate_exact
                           (sample_env always_completes [asha] before) fresh))
             (-1)); [now right | reflexivity].
  - apply (proj2 (proj2 (run_gate_exact
                           (sample_env always_completes [asha] after) fresh))
             1); [now left | reflexivity].
  - apply (proj1 (run_gate_exact
                    (sample_env always_completes [asha] at_1649) fresh)).
    split; reflexivity.
Defined.

(** ** The detectors *)

Lemma email_missing_unusable row :
  email_missing row <-> usable_email (email row) = None.
Proof.
  unfold email_missing, usable_email.
  destruct (email row) as [[| [|c s]]|]; split; intros H;
    try discriminate; auto; destruct H as [H | [H | H]]; discriminate.
Qed.

(** C5.  For each of the three events: when the date of the event resolves
    and its month and day are today's, but the e-mail is missing, the check
    returns [False], its only effect is one warning that names the employee
    and the event, and no session is opened. *)
Theorem missing_email_skips env row st d :
  email_missing row ->
  month d = month (today env) ->
  day d = day (today env) ->
  let name := fmt_text (get_name row "Employee") in
  (fst (parse_date (date_of_birth row) st) = Some d ->
   skips_with ("Skipped birthday for " +:+ name +:+ ": No email address")
     (check_birthday env row st) st) /\
  (fst (parse_date (date_of_joining row) st) = Some d ->
   skips_with ("Skipped work anniversary for " +:+ name
               +:+ ": No email address")
     (check_work_anniversary env row st) st) /\
  (fst (parse_date (marriage_anniversary row) st) = Some d ->
   skips_with ("Skipped marriage anniversary for " +:+ name
               +:+ ": No email address")
     (check_marriage_anniversary env row st) st).
Proof.
  intros Hmiss Hm Hd name. apply email_missing_unusable in Hmiss.
  split; [| split]; intros Hp.
  - unfold check_birthday.
    rewrite parse_date_eq, Hp, Hm, Hd, !Z.eqb_refl, Hmiss.
    repeat split.
  - unfold check_work_anniversary.
    rewrite parse_date_eq, Hp, Hm, Hd, !Z.eqb_refl, Hmiss.
    repeat split.
  - unfold check_marriage_anniversary.
    rewrite parse_date_eq, Hp, Hm, Hd, !Z.eqb_refl, Hmiss.
    repeat split.
Qed.

Lemma missing_email_skips_witness :
  let env := sample_env always_completes [asha_no_email] at_1649 in
  skips_with "Skipped birthday for Asha: No email address"
    (check_birthday env asha_no_email fresh) fresh /\
  skips_with "Skipped work anniversary for Asha: No email address"
    (check_work_anniversary env asha_no_email fresh) fresh /\
  skips_with "Skipped marriage anniversary for Asha: No email address"
    (check_marriage_anniversary env asha_no_email fresh) fresh.
Proof.
  intros env.
  assert (Hmiss : email_missing asha_no_email) by (right; left; reflexivity).
  split; [| split].
  - apply (proj1 (missing_email_skips env asha_no_email fresh
                    (mkdate 1990 3 15) Hmiss eq_refl eq_refl)).
    reflexivity.
  - apply (proj1 (proj2 (missing_email_skips env asha_no_email fresh
                           (mkdate 2019 3 15) Hmiss eq_refl eq_refl))).
    reflexivity.
  - apply (proj2 (proj2 (missing_email_skips env asha_no_email fresh
                           (mkdate 2015 3 15) Hmiss eq_refl eq_refl))).
    reflexivity.
Defined.

Lemma attempt_loop_detections env e subj html k max attempts :
  forall st,
    birthday_detections
      (snd (attempt_loop env e subj html k max attempts st))
    = birthday_detections st.
Proof.
  induction attempts as [|a attempts IH]; intros st; [reflexivity |].
  cbn [attempt_loop].
  destruct (smtp_outcome env (List.length (smtp_sessions st))) as [err|];
    [| reflexivity].
  destruct (a <? max); [| reflexivity].
  rewrite IH. reflexivity.
Qed.

Lemma send_email_detections env e subj html k max st :
  birthday_detections (snd (send_email env e subj html k max st))
  = birthday_detections st.
Proof.
  unfold send_email. case_bool_decide; [reflexivity |].
  apply attempt_loop_detections.
Qed.

(** C4, as the code has it.  For every row whose date of birth resolves to
    a date with today's month and day and whose e-mail is usable,
    [check_birthday] reports exactly one detection, with the age
    [today.year - dob.year] (the year of birth plays no part in the match);
    when the name is a text and the template exists, it goes on to
    [send_email] with the subject that greets the employee by name. *)
Theorem check_birthday_detects env row st dob addr :
  fst (parse_date (date_of_birth row) st) = Some dob ->
  month dob = month (today env) ->
  day dob = day (today env) ->
  usable_email (email row) = Some addr ->
  let age := year (today env) - year dob in
  let name := get_name row "Employee" in
  let line :=
    (INFO, "🎂 Birthday detected: " +:+ fmt_text name +:+ " (Age: " +:+ str age
           +:+ ")") in
  birthday_detections (snd (check_birthday env row st))
  = line :: birthday_detections st /\
  forall n template,
    name = TStr n ->
    template_file env (template_path (config env) "birthday.html")
    = Some template ->
    let sent :=
      send_email env addr ("🎉 Happy Birthday, " +:+ n +:+ "!")
        (replace (replace template "{{name}}" n) "{{age}}" (str age))
        "birthday" 3 (log (fst line) (snd line) st) in
    check_birthday env row st = (Ok (fst sent), snd sent).
Proof.
  intros Hp Hm Hd Hmail age name line.
  unfold check_birthday.
  rewrite parse_date_eq, Hp, Hm, Hd, !Z.eqb_refl, Hmail.
  cbn [andb]. fold age name. unfold load_email_template.
  split.
  - destruct (template_file env _) as [template|]; [| reflexivity].
    destruct (replace_name template name) as [html|]; [| reflexivity].
    match goal with |- context [send_email ?a ?b ?c ?d ?f ?g ?s] =>
      pose proof (send_email_detections a b c d f g s) as Hs;
      destruct (send_email a b c d f g s)
    end.
    cbn [snd] in *. rewrite Hs. reflexivity.
  - intros n template Hn Ht. subst line. unfold name in *.
    rewrite Ht, !Hn. cbn [replace_name fmt_text fst snd].
    match goal with |- context [send_email ?a ?b ?c ?d ?f ?g ?s] =>
      destruct (send_email a b c d f g s)
    end.
    reflexivity.
Qed.

Lemma check_birthday_detects_witness :
  let env := sample_env always_completes [asha] at_1649 in
  let out := check_birthday env asha fresh in
  fst out = Ok RTrue /\
  birthday_detections (snd out)
  = [(INFO, "🎂 Birthday detected: Asha (Age: 34)")] /\
  List.map s_subject (smtp_sessions (snd out)) = ["🎉 Happy Birthday, Asha!"].
Proof.
  intros env out.
  destruct (check_birthday_detects env asha fresh (mkdate 1990 3 15)
              "asha@x.com" eq_refl eq_refl eq_refl eq_refl) as [Hdet Hsend].
  specialize (Hsend "Asha" _ eq_refl eq_refl).
  fold out in Hdet, Hsend.
  split; [now rewrite Hsend |]. split; [exact Hdet |].
  rewrite Hsend. reflexivity.
Defined.

(** C4 as it is stated leaves out the e-mail: a birthday that falls today
    is not reported when the e-mail cell is empty. *)
Lemma check_birthday_needs_email :
  let env := sample_env always_completes [asha_no_email] at_1649 in
  let out := check_birthday env asha_no_email fresh in
  fst (parse_date (date_of_birth asha_no_email) fresh)
  = Some (mkdate 1990 3 15) /\
  month (mkdate 1990 3 15) = month (today env) /\
  day (mkdate 1990 3 15) = day (today env) /\
  fst out = Ok RFalse /\
  birthday_detections (snd out) = [] /\
  smtp_sessions (snd out) = [].
Proof. repeat split. Qed.

(** ** The date resolver *)

Lemma try_formats_none text fmts :
  (forall fmt, In fmt fmts -> forall d, strptime text fmt <> Ok d) ->
  try_formats text fmts = Ok None.
Proof.
  induction fmts as [|fmt fmts IH]; intros H; cbn; [reflexivity |].
  destruct (strptime text fmt) as [d|e] eqn:E.
  - exfalso. apply (H fmt (or_introl eq_refl) d E).
  - destruct (strptime_raises _ _ _ E) as [msg ->].
    apply IH. intros f Hf. apply H. now right.
Qed.

(** C7, as the code has it.  A text that none of the four formats matches
    resolves to [None], and nothing is logged: [parse_date] hands back the
    state it was given, for this and for every other input, so it never
    fails and never warns.  A row whose marriage anniversary is such a text
    makes [check_marriage_anniversary] return [False] with no line logged
    and no session opened. *)
Theorem unparseable_date_is_silent text st :
  no_format_matches text ->
  parse_date (Some (DStr text)) st = (None, st) /\
  (forall v st', snd (parse_date v st') = st') /\
  forall env row,
    marriage_anniversary row = Some (DStr text) ->
    check_marriage_anniversary env row st = (Ok RFalse, st).
Proof.
  intros Hno.
  assert (Hp : parse_date (Some (DStr text)) st = (None, st)).
  { unfold parse_date. cbn [isna]. now rewrite try_formats_none. }
  split; [exact Hp |]. split; [apply parse_date_silent |].
  intros env row Hrow. unfold check_marriage_anniversary.
  rewrite Hrow, Hp. reflexivity.
Qed.

Lemma not_a_date_matches_no_format : no_format_matches "not-a-date".
Proof.
  intros fmt Hin d. cbn in Hin.
  destruct Hin as [<- | [<- | [<- | [<- | []]]]]; discriminate.
Qed.

Lemma unparseable_date_is_silent_witness :
  parse_date (Some (DStr "not-a-date")) fresh = (None, fresh) /\
  check_marriage_anniversary (sample_env always_completes [] at_1649)
    married_not_a_date fresh = (Ok RFalse, fresh).
Proof.
  destruct (unparseable_date_is_silent "not-a-date" fresh
              not_a_date_matches_no_format) as (Hp & _ & Hc).
  split; [exact Hp |]. apply Hc. reflexivity.
Defined.

(** C7 as it is stated asks for a warning with the raw value.  None is
    written: after the check on "not-a-date" the log is as empty as
    before. *)
Lemma unparseable_date_logs_nothing :
  let env := sample_env always_completes [married_not_a_date] at_1649 in
  let out := check_marriage_anniversary env married_not_a_date fresh in
  fst out = Ok RFalse /\
  logger (snd (parse_date (Some (DStr "not-a-date")) fresh)) = [] /\
  logger (snd out) = [] /\
  ~ (exists msg, In (WARNING, msg) (logger (snd out))).
Proof.
  cbn. repeat split. intros [msg []].
Qed.

(** ** Writing a date out and reading it back *)

Lemma re_match_group d p s found :
  re_match (Group d :: p) s found
  = try_alts (re_match p) d s found (alternatives d).
Proof.
  cbn [re_match]. generalize (alternatives d).
  induction l as [|a l IH]; cbn [try_alts]; [reflexivity |].
  destruct (match_seq a s) as [[m r]|]; [| exact IH].
  destruct (re_match p r (set_group d m found)); [reflexivity | exact IH].
Qed.

Lemma digit_char_digit k : 0 <= k <= 9 -> digit (digit_char k) = true.
Proof.
  intros H.
  assert (E : k = 0 \/ k = 1 \/ k = 2 \/ k = 3 \/ k = 4 \/ k = 5 \/ k = 6
              \/ k = 7 \/ k = 8 \/ k = 9) by lia.
  repeat (destruct E as [-> | E]; [reflexivity |]). subst. reflexivity.
Qed.

Lemma digit_char_code k : 0 <= k <= 9 -> code (digit_char k) = 48 + k.
Proof.
  intros H.
  assert (E : k = 0 \/ k = 1 \/ k = 2 \/ k = 3 \/ k = 4 \/ k = 5 \/ k = 6
              \/ k = 7 \/ k = 8 \/ k = 9) by lia.
  repeat (destruct E as [-> | E]; [reflexivity |]). subst. reflexivity.
Qed.

Lemma digit_not_separator a c :
  digit a = false -> digit c = true -> Ascii.eqb a c = false.
Proof.
  intros Ha Hc. destruct (Ascii.eqb_spec a c) as [-> |]; congruence.
Qed.

Lemma py_int_two n : 0 <= n <= 99 -> py_int (two_digits n) = n.
Proof.
  intros H. unfold py_int, two_digits. cbn [list_ascii_of_string fold_left].
  rewrite !digit_char_digit, !digit_char_code
    by (Z.div_mod_to_equations; lia).
  Z.div_mod_to_equations; lia.
Qed.

Lemma py_int_four n : 0 <= n <= 9999 -> py_int (four_digits n) = n.
Proof.
  intros H. unfold py_int, four_digits. cbn [list_ascii_of_string fold_left].
  rewrite !digit_char_digit, !digit_char_code
    by (Z.div_mod_to_equations; lia).
  Z.div_mod_to_equations; lia.
Qed.

Ltac eval_classes :=
  repeat match goal with
    | |- context [range ?a ?b ?c] =>
        let v := eval vm_compute in (range a b c) in
        change (range a b c) with v
    | |- context [digit ?c] =>
        let v := eval vm_compute in (digit c) in
        change (digit c) with v
    end.

Ltac step_group :=
  match goal with
  | |- context [two_digits ?n] =>
      let v := eval vm_compute in (two_digits n) in
      change (two_digits n) with v
  end;
  cbv [String.append]; cbn [try_alts alternatives match_seq set_group];
  eval_classes; cbn;
  let H := fresh in intros H; now rewrite H.

Lemma re_match_day dd rest p found res :
  1 <= dd <= 31 ->
  re_match p rest (set_group Dd (two_digits dd) found) = Some res ->
  re_match (Group Dd :: p) (two_digits dd +:+ rest) found = Some res.
Proof.
  intros Hdd. rewrite re_match_group.
  replace dd with (Z.of_nat (Z.to_nat dd)) by lia.
  assert (Hn : (Z.to_nat dd <= 31)%nat) by lia.
  assert (Hp : (1 <= Z.to_nat dd)%nat) by lia.
  generalize dependent (Z.to_nat dd). clear dd Hdd. intros n Hn Hp.
  do 32 (destruct n as [|n];
         [try (exfalso; lia); clear Hn Hp;
          step_group |]).
  exfalso; lia.
Qed.

Lemma re_match_month mm rest p found res :
  1 <= mm <= 12 ->
  re_match p rest (set_group Dm (two_digits mm) found) = Some res ->
  re_match (Group Dm :: p) (two_digits mm +:+ rest) found = Some res.
Proof.
  intros Hmm. rewrite re_match_group.
  replace mm with (Z.of_nat (Z.to_nat mm)) by lia.
  assert (Hn : (Z.to_nat mm <= 12)%nat) by lia.
  assert (Hp : (1 <= Z.to_nat mm)%nat) by lia.
  generalize dependent (Z.to_nat mm). clear mm Hmm. intros n Hn Hp.
  do 13 (destruct n as [|n];
         [try (exfalso; lia); clear Hn Hp;
          step_group |]).
  exfalso; lia.
Qed.

Lemma re_match_year y rest p found res :
  0 <= y <= 9999 ->
  re_match p rest (set_group DY (four_digits y) found) = Some res ->
  re_match (Group DY :: p) (four_digits y +:+ rest) found = Some res.
Proof.
  intros Hy H. rewrite re_match_group.
  unfold four_digits in *.
  cbv [String.append]. cbn [alternatives try_alts match_seq].
  rewrite !digit_char_digit by (Z.div_mod_to_equations; lia).
  now rewrite H.
Qed.

(** A day or month group takes one or two characters, so a separator that
    is neither the second nor the third character of the text cannot follow
    it. *)
Lemma re_match_separator_fails d c c1 c2 c3 r p found :
  d = Dd \/ d = Dm ->
  Ascii.eqb c c2 = false ->
  Ascii.eqb c c3 = false ->
  re_match (Group d :: Lit c :: p) (String c1 (String c2 (String c3 r))) found
  = None.
Proof.
  intros Hd H2 H3. rewrite re_match_group.
  destruct Hd as [-> | ->];
    cbn [alternatives try_alts match_seq re_match];
    repeat match goal with
      | |- context [if ?k c1 then _ else _] => destruct (k c1)
      | |- context [if ?k c2 then _ else _] => destruct (k c2)
      end;
    try discriminate; rewrite ?H2, ?H3; reflexivity.
Qed.

Lemma re_match_year_fails c1 c2 c3 r p found :
  digit c3 = false ->
  re_match (Group DY :: p) (String c1 (String c2 (String c3 r))) found = None.
Proof.
  intros H3. rewrite re_match_group.
  cbn [alternatives try_alts match_seq].
  destruct (digit c1); [| reflexivity].
  destruct (digit c2); [| reflexivity].
  rewrite H3. reflexivity.
Qed.

Lemma strptime_no_match text fmt p :
  pattern fmt = Some p ->
  re_match p text no_groups = None ->
  exists msg, strptime text fmt = Raise (ValueError msg).
Proof. intros Hp Hm. unfold strptime. rewrite Hp, Hm. eauto. Qed.

Lemma days_in_month_le y m : days_in_month y m <= 31.
Proof.
  unfold days_in_month.
  destruct (m =? 2); [destruct (is_leap y); lia |].
  destruct (_ || _); lia.
Qed.

Lemma valid_date_bounds y m d :
  valid_date y m d = true -> 1 <= y <= 9999 /\ 1 <= m <= 12 /\ 1 <= d <= 31.
Proof.
  unfold valid_date. rewrite !andb_true_iff, !Z.leb_le.
  pose proof (days_in_month_le y m). lia.
Qed.

Lemma re_match_lit c p s found :
  re_match (Lit c :: p) (String c s) found = re_match p s found.
Proof. cbn [re_match]. now rewrite Ascii.eqb_refl. Qed.

Section RoundTrip.

Variable x : date.
Hypothesis Hvalid : valid_date (year x) (month x) (day x) = true.

Lemma written_date :
  forall p,
    re_match p (render p x) no_groups = Some (written x, EmptyString) ->
    forall fmt, pattern fmt = Some p ->
    strptime (strftime x fmt) fmt = Ok x.
Proof.
  intros p Hm fmt Hp. unfold strptime, strftime. rewrite Hp, Hm.
  destruct (valid_date_bounds _ _ _ Hvalid) as (Hy & Hmo & Hd).
  unfold written. cbn [g_Y g_m g_d group_int].
  rewrite py_int_four, !py_int_two, Hvalid by lia.
  now destruct x.
Qed.

Ltac match_written :=
  destruct (valid_date_bounds _ _ _ Hvalid) as (Hy & Hmo & Hd);
  cbn [render render_directive];
  repeat first
    [ rewrite re_match_lit
    | apply re_match_day; [lia |]
    | apply re_match_month; [lia |]
    | apply re_match_year; [lia |] ];
  reflexivity.

Lemma reads_dmy_hyphen :
  strptime (strftime x "%d-%m-%Y") "%d-%m-%Y" = Ok x.
Proof.
  apply (written_date
           [Group Dd; Lit "-"; Group Dm; Lit "-"; Group DY]);
    [| reflexivity].
  match_written.
Qed.

Lemma reads_dmy_slash :
  strptime (strftime x "%d/%m/%Y") "%d/%m/%Y" = Ok x.
Proof.
  apply (written_date
           [Group Dd; Lit "/"; Group Dm; Lit "/"; Group DY]);
    [| reflexivity].
  match_written.
Qed.

Lemma reads_ymd_hyphen :
  strptime (strftime x "%Y-%m-%d") "%Y-%m-%d" = Ok x.
Proof.
  apply (written_date
           [Group DY; Lit "-"; Group Dm; Lit "-"; Group Dd]);
    [| reflexivity].
  match_written.
Qed.

Lemma reads_dmy_dot :
  strptime (strftime x "%d.%m.%Y") "%d.%m.%Y" = Ok x.
Proof.
  apply (written_date
           [Group Dd; Lit "."; Group Dm; Lit "."; Group DY]);
    [| reflexivity].
  match_written.
Qed.

(** An earlier format does not read what a later one wrote. *)
Ltac no_match p :=
  destruct (valid_date_bounds _ _ _ Hvalid) as (Hy & Hmo & Hd);
  apply (strptime_no_match _ _ p); [reflexivity |];
  unfold strftime; cbn [pattern Ascii.eqb Bool.eqb directive_of];
  cbn [render render_directive]; unfold two_digits, four_digits;
  cbv [String.append];
  first
    [ apply re_match_separator_fails; [now left | |];
      first [ reflexivity
            | apply digit_not_separator; [reflexivity |];
              apply digit_char_digit; Z.div_mod_to_equations; lia ]
    | apply re_match_year_fails; reflexivity ].

Lemma slash_not_hyphen :
  exists msg, strptime (strftime x "%d/%m/%Y") "%d-%m-%Y"
              = Raise (ValueError msg).
Proof. no_match [Group Dd; Lit "-"; Group Dm; Lit "-"; Group DY]. Qed.

Lemma ymd_not_dmy_hyphen :
  exists msg, strptime (strftime x "%Y-%m-%d") "%d-%m-%Y"
              = Raise (ValueError msg).
Proof. no_match [Group Dd; Lit "-"; Group Dm; Lit "-"; Group DY]. Qed.

Lemma ymd_not_dmy_slash :
  exists msg, strptime (strftime x "%Y-%m-%d") "%d/%m/%Y"
              = Raise (ValueError msg).
Proof. no_match [Group Dd; Lit "/"; Group Dm; Lit "/"; Group DY]. Qed.

Lemma dot_not_hyphen :
  exists msg, strptime (strftime x "%d.%m.%Y") "%d-%m-%Y"
              = Raise (ValueError msg).
Proof. no_match [Group Dd; Lit "-"; Group Dm; Lit "-"; Group DY]. Qed.

Lemma dot_not_slash :
  exists msg, strptime (strftime x "%d.%m.%Y") "%d/%m/%Y"
              = Raise (ValueError msg).
Proof. no_match [Group Dd; Lit "/"; Group Dm; Lit "/"; Group DY]. Qed.

Lemma dot_not_ymd :
  exists msg, strptime (strftime x "%d.%m.%Y") "%Y-%m-%d"
              = Raise (ValueError msg).
Proof. no_match [Group DY; Lit "-"; Group Dm; Lit "-"; Group Dd]. Qed.

Lemma try_formats_written fmt :
  In fmt date_formats ->
  try_formats (strftime x fmt) date_formats = Ok (Some x).
Proof.
  unfold date_formats. intros [<- | [<- | [<- | [<- | []]]]];
    cbn [try_formats].
  - now rewrite reads_dmy_hyphen.
  - destruct slash_not_hyphen as [? ->]. now rewrite reads_dmy_slash.
  - destruct ymd_not_dmy_hyphen as [? ->].
    destruct ymd_not_dmy_slash as [? ->]. now rewrite reads_ymd_hyphen.
  - destruct dot_not_hyphen as [? ->]. destruct dot_not_slash as [? ->].
    destruct dot_not_ymd as [? ->]. now rewrite reads_dmy_dot.
Qed.

End RoundTrip.

Lemma try_formats_first text :
  forall fmts (i : nat) fmt d,
    fmts !! i = Some fmt ->
    strptime text fmt = Ok d ->
    (forall (j : nat) fmt', (j < i)%nat -> fmts !! j = Some fmt' ->
       forall d', strptime text fmt' <> Ok d') ->
    try_formats text fmts = Ok (Some d).
Proof.
  induction fmts as [|f fmts IH]; intros i fmt d Hi Hok Hbefore;
    [discriminate |].
  destruct i as [|i]; cbn in Hi.
  - injection Hi as ->. cbn [try_formats]. now rewrite Hok.
  - cbn [try_formats].
    destruct (strptime text f) as [d'|e] eqn:E.
    + exfalso. apply (Hbefore O f ltac:(lia) eq_refl d' E).
    + destruct (strptime_raises _ _ _ E) as [msg ->].
      apply (IH i fmt d Hi Hok).
      intros j fmt' Hj Hf. apply (Hbefore (S j) fmt'); [lia | exact Hf].
Qed.

(** C6.  The resolver tries a text against the four formats day-month-year
    with hyphens, with slashes, year-month-day with hyphens, and
    day-month-year with dots, in this order, and the first format that
    reads the text decides.  So a date written out in any of the four
    formats resolves to that date, and a missing or empty cell resolves to
    [None]. *)
Theorem parse_date_four_formats x fmt st :
  valid_date (year x) (month x) (day x) = true ->
  In fmt date_formats ->
  date_formats = ["%d-%m-%Y"; "%d/%m/%Y"; "%Y-%m-%d"; "%d.%m.%Y"] /\
  (forall text (i : nat) f d,
     date_formats !! i = Some f ->
     strptime text f = Ok d ->
     (forall (j : nat) f', (j < i)%nat -> date_formats !! j = Some f' ->
        forall d', strptime text f' <> Ok d') ->
     parse_date (Some (DStr text)) st = (Some d, st)) /\
  parse_date (Some (DStr (strftime x fmt))) st = (Some x, st) /\
  parse_date None st = (None, st) /\
  parse_date (Some DNaN) st = (None, st).
Proof.
  intros Hvalid Hin. split; [reflexivity |]. split; [| split].
  - intros text i f d Hi Hok Hbefore. unfold parse_date. cbn [isna].
    now rewrite (try_formats_first text date_formats i f d Hi Hok Hbefore).
  - unfold parse_date. cbn [isna]. now rewrite try_formats_written.
  - split; reflexivity.
Qed.

Lemma parse_date_four_formats_witness :
  let x := mkdate 1990 3 15 in
  strftime x "%d-%m-%Y" = "15-03-1990" /\
  strftime x "%d/%m/%Y" = "15/03/1990" /\
  strftime x "%Y-%m-%d" = "1990-03-15" /\
  strftime x "%d.%m.%Y" = "15.03.1990" /\
  parse_date (Some (DStr "15-03-1990")) fresh = (Some x, fresh) /\
  parse_date (Some (DStr "15/03/1990")) fresh = (Some x, fresh) /\
  parse_date (Some (DStr "1990-03-15")) fresh = (Some x, fresh) /\
  parse_date (Some (DStr "15.03.1990")) fresh = (Some x, fresh).
Proof.
  intros x. do 4 (split; [reflexivity |]).
  assert (Hv : valid_date (year x) (month x) (day x) = true) by reflexivity.
  pose proof (fun fmt H =>
    proj1 (proj2 (proj2 (parse_date_four_formats x fmt fresh Hv H)))) as P.
  split; [apply (P "%d-%m-%Y"); cbn; tauto |].
  split; [apply (P "%d/%m/%Y"); cbn; tauto |].
  split; [apply (P "%Y-%m-%d"); cbn; tauto |].
  apply (P "%d.%m.%Y"); cbn; tauto.
Defined.

(** * Further properties *)

(** ** The shape of a delivery, whatever the server does *)

Lemma attempt_loop_shape env e subj html k max (n : nat) :
  forall a st,
    Z.of_nat n = max + 1 - a ->
    let out := attempt_loop env e subj html k max (py_range a (max + 1)) st in
    match fst out with
    | RNone => n = O /\ snd out = st
    | RTrue =>
        exists j, (j < n)%nat /\
          smtp_sessions (snd out)
          = session_of env e subj html k true
            :: repeat (session_of env e subj html k false) j
            ++ smtp_sessions st /\
          sleeps (snd out) = repeat 2 j ++ sleeps st /\
          email_sent_today (snd out) = {[ (e, k) ]} ∪ email_sent_today st
    | RFalse =>
        (0 < n)%nat /\
        smtp_sessions (snd out)
        = repeat (session_of env e subj html k false) n ++ smtp_sessions st /\
        sleeps (snd out) = repeat 2 (n - 1) ++ sleeps st /\
        email_sent_today (snd out) = email_sent_today st
    end.
Proof.
  induction n as [|n IH]; intros a st Hn.
  - rewrite py_range_nil by lia. cbn. auto.
  - rewrite py_range_cons by lia. cbn [attempt_loop].
    destruct (smtp_outcome env (List.length (smtp_sessions st))) as [err|].
    + destruct (a <? max) eqn:Ea.
      * apply Z.ltb_lt in Ea.
        match goal with |- context [attempt_loop _ _ _ _ _ _ _ ?s] =>
          specialize (IH (a + 1) s ltac:(lia)); cbv zeta in IH;
          destruct (attempt_loop env e subj html k max
                      (py_range (a + 1) (max + 1)) s) as [r st']
        end.
        cbn [fst snd] in *. destruct r.
        -- destruct IH as (j & Hj & Hs & Hsl & Hk). exists (S j).
           split; [lia |]. rewrite Hs, Hsl, Hk. cbn.
           rewrite !repeat_snoc. auto.
        -- destruct IH as (Hpos & Hs & Hsl & Hk).
           split; [lia |]. rewrite Hs, Hsl, Hk. cbn.
           rewrite repeat_snoc. split; [reflexivity |]. split; [| reflexivity].
           destruct n as [|n]; [lia |]. cbn. rewrite Nat.sub_0_r.
           now rewrite repeat_snoc.
        -- destruct IH as [Hz _]. lia.
      * apply Z.ltb_ge in Ea. assert (n = O) by lia. subst n.
        cbn. auto with lia.
    + cbn. exists O. split; [lia |]. auto.
Qed.

(** X1.  For a key that is not in the registry and at least one attempt allowed,
    whatever the server does: [send_email] returns [True] or [False], never
    [None].  It returns [True] after fewer than [max_retries] failed
    sessions followed by the one that completed, and [False] after exactly
    [max_retries] failed sessions.  It sleeps 2 seconds after every failed
    session but the last allowed one, and it adds the key exactly when it
    returns [True]. *)
Theorem send_email_outcomes env e subj html k max st :
  (e, k) ∉ email_sent_today st ->
  1 <= max ->
  let out := send_email env e subj html k max st in
  (fst out = RTrue /\
   exists j, (Z.of_nat j < max) /\
     smtp_sessions (snd out)
     = session_of env e subj html k true
       :: repeat (session_of env e subj html k false) j ++ smtp_sessions st /\
     sleeps (snd out) = repeat 2 j ++ sleeps st /\
     email_sent_today (snd out) = {[ (e, k) ]} ∪ email_sent_today st)
  \/
  (fst out = RFalse /\
   smtp_sessions (snd out)
   = repeat (session_of env e subj html k false) (Z.to_nat max)
     ++ smtp_sessions st /\
   sleeps (snd out) = repeat 2 (Z.to_nat max - 1) ++ sleeps st /\
   email_sent_today (snd out) = email_sent_today st).
Proof.
  intros Hfresh Hmax out. subst out. unfold send_email.
  case_bool_decide; [contradiction |].
  pose proof (attempt_loop_shape env e subj html k max (Z.to_nat max) 1 st
                ltac:(lia)) as Hshape.
  cbv zeta in Hshape.
  destruct (attempt_loop env e subj html k max (py_range 1 (max + 1)) st)
    as [r st'].
  cbn [fst snd] in *. destruct r.
  - left. split; [reflexivity |]. destruct Hshape as (j & Hj & Hshape).
    exists j. split; [lia | exact Hshape].
  - right. split; [reflexivity |]. tauto.
  - destruct Hshape as [Hz _]. lia.
Qed.

Lemma send_email_outcomes_witness :
  let env := sample_env (fails_first 2) [] at_1649 in
  let out := send_email env "asha@x.com" "Hi" "<p>Hi</p>" "birthday" 3 fresh in
  fst out = RTrue /\
  List.map s_ok (smtp_sessions (snd out)) = [true; false; false] /\
  sleeps (snd out) = [2; 2].
Proof.
  intros env out.
  destruct (send_email_outcomes env "asha@x.com" "Hi" "<p>Hi</p>" "birthday"
              3 fresh) as [(Hr & j & Hj & Hs & Hsl & _) | (Hr & _)].
  - apply not_elem_of_empty.
  - lia.
  - fold out in Hr, Hs, Hsl. split; [exact Hr |].
    assert (j = 2%nat) as ->.
    { assert (E : List.length (smtp_sessions (snd out)) = 3%nat)
        by reflexivity.
      rewrite Hs in E. cbn in E. rewrite length_app, repeat_length in E.
      cbn in E. lia. }
    rewrite Hs, Hsl. split; reflexivity.
  - discriminate Hr.
Defined.

(** The sessions one call of [send_email] adds, for any arguments: some
    failed ones and, on top, the completed one when it returns [True]. *)
Lemma send_email_sessions env e subj html k max st :
  exists j,
    smtp_sessions (snd (send_email env e subj html k max st))
    = (if truthy (fst (send_email env e subj html k max st))
       then [session_of env e subj html k true] else [])
      ++ repeat (session_of env e subj html k false) j ++ smtp_sessions st.
Proof.
  unfold send_email. case_bool_decide; [exists O; reflexivity |].
  destruct (Z_le_gt_dec max 0) as [Hle | Hgt].
  - rewrite py_range_nil by lia. exists O. reflexivity.
  - pose proof (attempt_loop_shape env e subj html k max (Z.to_nat max) 1 st
                  ltac:(lia)) as Hs.
    cbv zeta in Hs.
    destruct (attempt_loop env e subj html k max (py_range 1 (max + 1)) st)
      as [r st'].
    cbn [fst snd] in *. destruct r.
    + destruct Hs as (j & _ & Hs & _). exists j. exact Hs.
    + destruct Hs as (_ & Hs & _). eexists. exact Hs.
    + destruct Hs as [Hz _]. lia.
Qed.

Lemma completed_failed env e subj html k j :
  completed (repeat (session_of env e subj html k false) j) = [].
Proof. induction j as [|j IH]; [reflexivity | exact IH]. Qed.

Lemma send_email_completed env e subj html k max st :
  completed (smtp_sessions (snd (send_email env e subj html k max st)))
  = (if truthy (fst (send_email env e subj html k max st))
     then [session_of env e subj html k true] else [])
    ++ completed (smtp_sessions st).
Proof.
  destruct (send_email_sessions env e subj html k max st) as [j ->].
  unfold completed.
  rewrite !List.filter_app. fold (completed (repeat (session_of env e subj html k false) j)).
  rewrite completed_failed.
  destruct (truthy _); reflexivity.
Qed.

Lemma send_email_completed_to env e subj html k max st e' k' :
  completed_to e' k' (snd (send_email env e subj html k max st))
  = (completed_to e' k' st
     + if truthy (fst (send_email env e subj html k max st))
          && String.eqb e e' && String.eqb k k'
       then 1 else 0)%nat.
Proof.
  unfold completed_to. rewrite send_email_completed.
  destruct (truthy _); cbn [app andb]; [| lia].
  cbn [List.filter session_of s_to s_event].
  destruct (String.eqb e e' && String.eqb k k'); cbn [List.length]; lia.
Qed.

Lemma send_email_completed_for env e subj html k max st k' :
  completed_for k' (snd (send_email env e subj html k max st))
  = (completed_for k' st
     + if truthy (fst (send_email env e subj html k max st))
          && String.eqb k k'
       then 1 else 0)%nat.
Proof.
  unfold completed_for. rewrite send_email_completed.
  destruct (truthy _); cbn [app andb]; [| lia].
  cbn [List.filter session_of s_event].
  destruct (String.eqb k k'); cbn [List.length]; lia.
Qed.

(** ** At most one completed session per key *)

(** X2.  In every state of a run, each key (address as spelled, event) has
    at most one completed session, and has one exactly when the key is in
    the registry.  This counts sessions that ran to the end of the [try]
    block, not mails received. *)
Theorem at_most_one_completed_session env st :
  reachable env st ->
  forall e k,
    (completed_to e k st <= 1)%nat /\
    (completed_to e k st = 1%nat <-> (e, k) ∈ email_sent_today st).
Proof.
  induction 1 as [st Hr Hs | st l msg _ IH | st _ IH
                 | st e0 subj html k0 max _ IH]; intros e k.
  - unfold completed_to. rewrite Hs, Hr. cbn. split; [lia |].
    split; [discriminate | intros Hin; now apply not_elem_of_empty in Hin].
  - apply IH.
  - apply IH.
  - rewrite send_email_completed_to.
    destruct (send_email_effect env e0 subj html k0 max st)
      as [new [_ _ _ Hreg _]].
    rewrite Hreg. clear Hreg.
    destruct (IH e k) as [Hle Hiff].
    assert (Hdup : (e0, k0) ∈ email_sent_today st ->
                   truthy (fst (send_email env e0 subj html k0 max st))
                   = false).
    { intros Hin. unfold send_email. case_bool_decide; [reflexivity |].
      contradiction. }
    destruct (truthy (fst (send_email env e0 subj html k0 max st))) eqn:Et;
      cbn [andb]; [| rewrite Nat.add_0_r; auto].
    destruct (String.eqb_spec e0 e) as [-> | Hne];
      [destruct (String.eqb_spec k0 k) as [-> | Hne] |]; cbn [andb].
    + assert (Hout : (e, k) ∉ email_sent_today st).
      { intros Hin. specialize (Hdup Hin). discriminate. }
      assert (completed_to e k st = O) as ->.
      { destruct (Nat.eq_dec (completed_to e k st) 1%nat) as [E | E]; [| lia].
        exfalso. apply Hout, Hiff, E. }
      split; [lia |]. split; [intros _ | reflexivity].
      apply elem_of_union_l, elem_of_singleton. reflexivity.
    + rewrite Nat.add_0_r. split; [exact Hle |]. rewrite Hiff.
      rewrite elem_of_union, elem_of_singleton.
      split; [auto | intros [E | ?]; [congruence | assumption]].
    + rewrite Nat.add_0_r. split; [exact Hle |]. rewrite Hiff.
      rewrite elem_of_union, elem_of_singleton.
      split; [auto | intros [E | ?]; [congruence | assumption]].
Qed.

(** The same address twice in the workbook: one completed session. *)
Lemma at_most_one_completed_session_witness :
  let env := sample_env always_completes [asha; asha] at_1649 in
  reachable env (snd (run env fresh)) /\
  completed_to "asha@x.com" "birthday" (snd (run env fresh)) = 1%nat.
Proof.
  intros env.
  assert (H : reachable env (snd (run env fresh))).
  { apply run_reach, reach_start; reflexivity. }
  split; [exact H |].
  apply (proj2 (at_most_one_completed_session env _ H "asha@x.com" "birthday")).
  vm_compute. reflexivity.
Defined.

(** ** The detectors, step by step *)

Ltac step_detector :=
  match goal with
  | |- detector_step _ _ _ _ (let '(_, _) := parse_date ?v ?st in _) =>
      rewrite (parse_date_eq v st); destruct (fst (parse_date v st))
  end;
  [| now apply step_quiet];
  match goal with |- context [if ?b then _ else _] => destruct b end;
  [| now apply step_quiet];
  match goal with
  | |- context [usable_email ?e] => destruct (usable_email e) eqn:?
  end;
  [| now apply step_quiet];
  unfold load_email_template;
  match goal with
  | |- context [template_file ?env ?p] => destruct (template_file env p)
  end;
  [| now apply step_quiet];
  match goal with
  | |- context [replace_name ?t ?n] => destruct (replace_name t n)
  end;
  [| now apply step_quiet];
  match goal with
  | |- context [send_email ?env ?a ?s ?h ?k ?m ?st] =>
      rewrite (surjective_pairing (send_email env a s h k m st));
      apply (step_send _ _ _ _ _ a s h st);
        [eassumption | reflexivity ..]
  end.

Lemma check_birthday_step env row st :
  detector_step env row "birthday" st (check_birthday env row st).
Proof. unfold check_birthday. step_detector. Qed.

Lemma check_work_anniversary_step env row st :
  detector_step env row "work_anniversary" st
    (check_work_anniversary env row st).
Proof. unfold check_work_anniversary. step_detector. Qed.

Lemma check_marriage_anniversary_step env row st :
  detector_step env row "marriage_anniversary" st
    (check_marriage_anniversary env row st).
Proof. unfold check_marriage_anniversary. step_detector. Qed.

Lemma detector_step_completed_for env row k st out k' :
  detector_step env row k st out ->
  completed_for k' (snd out)
  = (completed_for k' st + if counted (fst out) && String.eqb k k' then 1 else 0)%nat.
Proof.
  intros [Hs _ _ _ Hc | addr subj html st1 _ Hs _ _ _ ->].
  - rewrite Hc. unfold completed_for. rewrite Hs. cbn. lia.
  - cbn [fst snd counted]. rewrite send_email_completed_for.
    unfold completed_for. now rewrite Hs.
Qed.

(** ** The counters of [run] *)

Ltac three_kinds H :=
  pose proof (H "birthday"); pose proof (H "work_anniversary");
  pose proof (H "marriage_anniversary"); clear H.

Lemma completed_for_log k l msg st : completed_for k (log l msg st) = completed_for k st.
Proof. reflexivity. Qed.

Lemma process_row_counts env index row c st :
  counters_follow c st (fst (process_row env index row c st))
                  (snd (process_row env index row c st)).
Proof.
  unfold process_row, counters_follow.
  pose proof (fun k' => detector_step_completed_for _ _ _ _ _ k'
                          (check_birthday_step env row st)) as Hb.
  destruct (check_birthday env row st) as [[r1|e1] st1];
    cbn [fst snd counted] in Hb; three_kinds Hb;
    [| cbn -[completed_for] in *; rewrite !completed_for_log; lia].
  pose proof (fun k' => detector_step_completed_for _ _ _ _ _ k'
                          (check_work_anniversary_step env row st1)) as Hw.
  destruct (check_work_anniversary env row st1) as [[r2|e2] st2];
    cbn [fst snd counted] in Hw; three_kinds Hw;
    [| destruct (truthy r1); cbn -[completed_for] in *; rewrite !completed_for_log;
       lia].
  pose proof (fun k' => detector_step_completed_for _ _ _ _ _ k'
                          (check_marriage_anniversary_step env row st2)) as Hm.
  destruct (check_marriage_anniversary env row st2) as [[r3|e3] st3];
    cbn [fst snd counted] in Hm; three_kinds Hm;
    destruct (truthy r1), (truthy r2); try destruct (truthy r3);
    cbn -[completed_for] in *; rewrite ?completed_for_log; lia.
Qed.

Lemma counters_follow_trans c0 st0 c1 st1 c2 st2 :
  counters_follow c0 st0 c1 st1 -> counters_follow c1 st1 c2 st2 ->
  counters_follow c0 st0 c2 st2.
Proof. unfold counters_follow. lia. Qed.

Lemma iterrows_counts env df :
  forall index c st,
    counters_follow c st (fst (iterrows env index df c st))
                    (snd (iterrows env index df c st)).
Proof.
  induction df as [|row df IH]; intros index c st; cbn [iterrows].
  - unfold counters_follow. cbn. lia.
  - pose proof (process_row_counts env index row c st) as H1.
    destruct (process_row env index row c st) as [c1 st1].
    cbn [fst snd] in H1.
    eapply counters_follow_trans; [exact H1 | apply IH].
Qed.

(** X3.  When the gate is open and the workbook loads, [run] ends normally and
    the last lines of its log give, for each event, exactly the number of
    sessions for that event that completed during the run, and their sum as
    the total. *)
Theorem run_summary_counts_completed env st df :
  gate_open env ->
  workbook env = Ok df ->
  let st' := snd (run env st) in
  let n k := Z.of_nat (completed_for k st') - Z.of_nat (completed_for k st) in
  fst (run env st) = Ok tt /\
  exists older,
    logger st'
    = (INFO, "=== HR Email Automation Completed (IST: "
             +:+ fmt_timestamp (clock_at_end env) +:+ ") ===")
      :: (INFO, "Total emails sent: "
                +:+ str (n "birthday" + n "work_anniversary"
                         + n "marriage_anniversary"))
      :: (INFO, "Marriage anniversary emails sent: "
                +:+ str (n "marriage_anniversary"))
      :: (INFO, "Work anniversary emails sent: "
                +:+ str (n "work_anniversary"))
      :: (INFO, "Birthday emails sent: " +:+ str (n "birthday"))
      :: (INFO, "=== Summary ===") :: older.
Proof.
  intros [Hh Hm] Hbook st' n. subst st' n. unfold run.
  rewrite Hh, Hm, !Z.eqb_refl. cbn [negb orb].
  unfold load_employee_data. rewrite Hbook.
  match goal with |- context [iterrows ?e ?i ?d ?c ?s] =>
    pose proof (iterrows_counts e d i c s) as Hc;
    destruct (iterrows e i d c s) as [c' s']
  end.
  cbn [fst snd] in *. split; [reflexivity |].
  destruct Hc as (Hb & Hw & Hma).
  cbn [birthday_count work_anniversary_count marriage_anniversary_count]
    in Hb, Hw, Hma.
  rewrite !completed_for_log in Hb, Hw, Hma.
  change (completed_for "birthday" (count_read ?s))
    with (completed_for "birthday" s) in Hb.
  change (completed_for "work_anniversary" (count_read ?s))
    with (completed_for "work_anniversary" s) in Hw.
  change (completed_for "marriage_anniversary" (count_read ?s))
    with (completed_for "marriage_anniversary" s) in Hma.
  rewrite !completed_for_log in Hb, Hw, Hma.
  rewrite Z.sub_0_r in Hb, Hw, Hma.
  unfold summary. rewrite !completed_for_log. rewrite <- Hb, <- Hw, <- Hma.
  eexists. reflexivity.
Qed.

Lemma run_summary_counts_completed_witness :
  let env := sample_env always_completes [asha; asha_no_email; asha] at_1649 in
  exists older,
    logger (snd (run env fresh))
    = (INFO, "=== HR Email Automation Completed (IST: 2024-03-15 16:49:00) ===")
      :: (INFO, "Total emails sent: 1")
      :: (INFO, "Marriage anniversary emails sent: 0")
      :: (INFO, "Work anniversary emails sent: 0")
      :: (INFO, "Birthday emails sent: 1")
      :: (INFO, "=== Summary ===") :: older.
Proof.
  intros env.
  destruct (run_summary_counts_completed env fresh [asha; asha_no_email; asha])
    as [_ [older H]]; [split; reflexivity | reflexivity |].
  exists older. rewrite H. reflexivity.
Defined.

(** ** Days without an event *)

Lemma falls_today_false env d :
  falls_today env (Some d) = false ->
  (day (today env) =? day d) && (month (today env) =? month d) = false /\
  (month (today env) =? month d) && (day (today env) =? day d) = false.
Proof.
  cbn [falls_today]. rewrite (Z.eqb_sym (month d)), (Z.eqb_sym (day d)).
  intros H. split; [rewrite andb_comm |]; exact H.
Qed.

Lemma check_birthday_quiet env row st :
  falls_today env (fst (parse_date (date_of_birth row) st)) = false ->
  check_birthday env row st = (Ok RFalse, st).
Proof.
  intros H. unfold check_birthday. rewrite parse_date_eq.
  destruct (fst (parse_date (date_of_birth row) st)) as [d|]; [| reflexivity].
  now rewrite (proj1 (falls_today_false env d H)).
Qed.

Lemma check_work_anniversary_quiet env row st :
  falls_today env (fst (parse_date (date_of_joining row) st)) = false ->
  check_work_anniversary env row st = (Ok RFalse, st).
Proof.
  intros H. unfold check_work_anniversary. rewrite parse_date_eq.
  destruct (fst (parse_date (date_of_joining row) st)) as [d|]; [| reflexivity].
  now rewrite (proj2 (falls_today_false env d H)).
Qed.

Lemma check_marriage_anniversary_quiet env row st :
  falls_today env (fst (parse_date (marriage_anniversary row) st)) = false ->
  check_marriage_anniversary env row st = (Ok RFalse, st).
Proof.
  intros H. unfold check_marriage_anniversary. rewrite parse_date_eq.
  destruct (fst (parse_date (marriage_anniversary row) st)) as [d|];
    [| reflexivity].
  now rewrite (proj1 (falls_today_false env d H)).
Qed.

(** X4.  A check whose date is missing, does not resolve, or resolves to another
    month or day than today's returns [False] and changes nothing: no line
    in the log, no session, no entry in the registry. *)
Theorem no_event_today_no_effect env row st :
  (falls_today env (fst (parse_date (date_of_birth row) st)) = false ->
   check_birthday env row st = (Ok RFalse, st)) /\
  (falls_today env (fst (parse_date (date_of_joining row) st)) = false ->
   check_work_anniversary env row st = (Ok RFalse, st)) /\
  (falls_today env (fst (parse_date (marriage_anniversary row) st)) = false ->
   check_marriage_anniversary env row st = (Ok RFalse, st)).
Proof.
  split; [apply check_birthday_quiet |].
  split; [apply check_work_anniversary_quiet
         | apply check_marriage_anniversary_quiet].
Qed.

Lemma no_event_today_no_effect_witness :
  let env := sample_env always_completes [meera] at_1649 in
  check_birthday env meera fresh = (Ok RFalse, fresh) /\
  check_work_anniversary env meera fresh = (Ok RFalse, fresh) /\
  check_marriage_anniversary env asha fresh = (Ok RFalse, fresh).
Proof.
  intros env. split; [| split].
  - apply (proj1 (no_event_today_no_effect env meera fresh)). reflexivity.
  - apply (proj1 (proj2 (no_event_today_no_effect env meera fresh))).
    reflexivity.
  - apply (proj2 (proj2 (no_event_today_no_effect env asha fresh))).
    reflexivity.
Defined.

Lemma common_year_has_no_leap_day env d :
  valid_date (year (today env)) (month (today env)) (day (today env)) = true ->
  is_leap (year (today env)) = false ->
  month d = 2 -> day d = 29 ->
  falls_today env (Some d) = false.
Proof.
  unfold valid_date, days_in_month. intros Hv Hleap Hm Hd.
  cbn [falls_today]. rewrite Hm, Hd, Hleap in *.
  destruct (Z.eqb_spec 2 (month (today env))) as [E|]; [| reflexivity].
  rewrite <- E in Hv. cbn in Hv.
  rewrite !andb_true_iff, !Z.leb_le in Hv.
  cbn [andb]. apply Z.eqb_neq. lia.
Qed.

(** X5.  In a year that is not a leap year, a date of 29 February never matches:
    whatever today's (valid) date is, the three checks return [False] for a
    birthday or anniversary on 29 February and change nothing. *)
Theorem leap_day_skipped_in_common_year env row st d :
  valid_date (year (today env)) (month (today env)) (day (today env)) = true ->
  is_leap (year (today env)) = false ->
  month d = 2 -> day d = 29 ->
  (fst (parse_date (date_of_birth row) st) = Some d ->
   check_birthday env row st = (Ok RFalse, st)) /\
  (fst (parse_date (date_of_joining row) st) = Some d ->
   check_work_anniversary env row st = (Ok RFalse, st)) /\
  (fst (parse_date (marriage_anniversary row) st) = Some d ->
   check_marriage_anniversary env row st = (Ok RFalse, st)).
Proof.
  intros Hv Hleap Hm Hd.
  pose proof (common_year_has_no_leap_day env d Hv Hleap Hm Hd) as Hnot.
  split; [| split]; intros Hp.
  - apply check_birthday_quiet. now rewrite Hp.
  - apply check_work_anniversary_quiet. now rewrite Hp.
  - apply check_marriage_anniversary_quiet. now rewrite Hp.
Qed.

Lemma leap_day_skipped_in_common_year_witness :
  let env := env_on (mkdate 2023 2 28) always_completes sample_files [leapling]
  in
  check_birthday env leapling fresh = (Ok RFalse, fresh) /\
  check_birthday (env_on (mkdate 2023 3 1) always_completes sample_files
                    [leapling]) leapling fresh
  = (Ok RFalse, fresh).
Proof.
  intros env. split.
  - apply (proj1 (leap_day_skipped_in_common_year env leapling fresh
                    (mkdate 2000 2 29) eq_refl eq_refl eq_refl eq_refl)).
    reflexivity.
  - apply (proj1 (leap_day_skipped_in_common_year
                    (env_on (mkdate 2023 3 1) always_completes sample_files
                       [leapling])
                    leapling fresh (mkdate 2000 2 29)
                    eq_refl eq_refl eq_refl eq_refl)).
    reflexivity.
Defined.

(** ** Anniversaries *)

(** X6.  A work anniversary that falls today, for a row with a usable e-mail, a
    text name and an existing template: the check logs the detection with
    the years completed, [today.year - doj.year], and hands the personalised
    template to [send_email] under the event "work_anniversary", with the
    years and the name in the subject; its result is the result of that
    call. *)
Theorem work_anniversary_detects env row st doj addr n template :
  fst (parse_date (date_of_joining row) st) = Some doj ->
  month doj = month (today env) ->
  day doj = day (today env) ->
  usable_email (email row) = Some addr ->
  get_name row "Employee" = TStr n ->
  template_file env (template_path (config env) "work_anniversary.html")
  = Some template ->
  let years := year (today env) - year doj in
  let sent :=
    send_email env addr
      ("🌟 Happy " +:+ str years +:+ " Year Work Anniversary, " +:+ n +:+ "!")
      (replace (replace template "{{name}}" n) "{{years}}" (str years))
      "work_anniversary" 3
      (log INFO ("🎊 Work Anniversary detected: " +:+ n +:+ " (" +:+ str years
                 +:+ " years)") st) in
  check_work_anniversary env row st = (Ok (fst sent), snd sent).
Proof.
  intros Hp Hm Hd Hmail Hn Ht years sent. subst sent years.
  unfold check_work_anniversary, load_email_template.
  rewrite parse_date_eq, Hp, Hm, Hd, !Z.eqb_refl, Hmail, Ht, !Hn.
  cbn [andb replace_name fmt_text].
  match goal with |- context [send_email ?a ?b ?c ?d ?f ?g ?s] =>
    destruct (send_email a b c d f g s)
  end.
  reflexivity.
Qed.

Lemma work_anniversary_detects_witness :
  let env := env_on (mkdate 2024 6 1) always_completes sample_files [meera] in
  let out := check_work_anniversary env meera fresh in
  fst out = Ok RTrue /\
  List.map s_subject (smtp_sessions (snd out))
  = ["🌟 Happy 5 Year Work Anniversary, Meera!"] /\
  List.map s_html (smtp_sessions (snd out))
  = ["<p>Meera: 5 years with us.</p>"].
Proof.
  intros env out.
  pose proof (work_anniversary_detects env meera fresh (mkdate 2019 6 1)
                "meera@x.com" "Meera" _
                eq_refl eq_refl eq_refl eq_refl eq_refl eq_refl) as H.
  fold out in H. rewrite H. repeat split.
Defined.

(** X7.  A marriage anniversary that falls today, for a row with a usable
    e-mail, a text name and an existing template: the check logs the
    detection with the years completed, [today.year - date.year], and hands
    the personalised template to [send_email] under the event
    "marriage_anniversary", with the years and the name in the subject; its
    result is the result of that call. *)
Theorem marriage_anniversary_detects env row st wed addr n template :
  fst (parse_date (marriage_anniversary row) st) = Some wed ->
  month wed = month (today env) ->
  day wed = day (today env) ->
  usable_email (email row) = Some addr ->
  get_name row "Employee" = TStr n ->
  template_file env (template_path (config env) "marriage_anniversary.html")
  = Some template ->
  let years := year (today env) - year wed in
  let sent :=
    send_email env addr
      ("💕 Happy " +:+ str years +:+ " Year Marriage Anniversary, " +:+ n
       +:+ "!")
      (replace (replace template "{{name}}" n) "{{years}}" (str years))
      "marriage_anniversary" 3
      (log INFO ("💑 Marriage Anniversary detected: " +:+ n +:+ " ("
                 +:+ str years +:+ " years)") st) in
  check_marriage_anniversary env row st = (Ok (fst sent), snd sent).
Proof.
  intros Hp Hm Hd Hmail Hn Ht years sent. subst sent years.
  unfold check_marriage_anniversary, load_email_template.
  rewrite parse_date_eq, Hp, Hm, Hd, !Z.eqb_refl, Hmail, Ht, !Hn.
  cbn [andb replace_name fmt_text].
  match goal with |- context [send_email ?a ?b ?c ?d ?f ?g ?s] =>
    destruct (send_email a b c d f g s)
  end.
  reflexivity.
Qed.

Lemma marriage_anniversary_detects_witness :
  let env := env_on (mkdate 2024 6 1) always_completes sample_files [meera] in
  let out := check_marriage_anniversary env meera fresh in
  fst out = Ok RTrue /\
  List.map s_subject (smtp_sessions (snd out))
  = ["💕 Happy 3 Year Marriage Anniversary, Meera!"] /\
  List.map s_event (smtp_sessions (snd out)) = ["marriage_anniversary"].
Proof.
  intros env out.
  pose proof (marriage_anniversary_detects env meera fresh (mkdate 2021 6 1)
                "meera@x.com" "Meera" _
                eq_refl eq_refl eq_refl eq_refl eq_refl eq_refl) as H.
  fold out in H. rewrite H. repeat split.
Defined.

(** ** A row that fails *)

(** X8.  When the birthday of a row falls today, its e-mail is usable and the
    birthday template is missing, the row ends there: the detection and the
    missing template are logged, the error is logged with the employee's
    name, no session is opened, the counters stay, and the two anniversary
    checks of the row are not made, whatever its other dates are. *)
Theorem missing_template_ends_row env index row c st dob addr :
  fst (parse_date (date_of_birth row) st) = Some dob ->
  month dob = month (today env) ->
  day dob = day (today env) ->
  usable_email (email row) = Some addr ->
  template_file env (template_path (config env) "birthday.html") = None ->
  let path := template_path (config env) "birthday.html" in
  process_row env index row c st
  = (c,
     log ERROR ("Error processing employee "
                +:+ fmt_text (get_name row ("Row " +:+ str index))
                +:+ ": [Errno 2] No such file or directory: '" +:+ path
                +:+ "'")
       (log ERROR ("Template not found: " +:+ path)
          (log INFO ("🎂 Birthday detected: "
                     +:+ fmt_text (get_name row "Employee") +:+ " (Age: "
                     +:+ str (year (today env) - year dob) +:+ ")") st))).
Proof.
  intros Hp Hm Hd Hmail Ht path. subst path.
  unfold process_row, check_birthday, load_email_template.
  rewrite parse_date_eq, Hp, Hm, Hd, !Z.eqb_refl, Hmail, Ht.
  reflexivity.
Qed.

(** Meera's birthday is 1 June like her two anniversaries: without the
    birthday template none of the three mails goes out. *)
Lemma missing_template_ends_row_witness :
  let files path :=
    if String.eqb path "templates/birthday.html" then None
    else sample_files path in
  let env := env_on (mkdate 2024 6 1) always_completes files [meera] in
  let out := process_row env 0 meera (mkCounters 0 0 0) fresh in
  fst out = mkCounters 0 0 0 /\
  smtp_sessions (snd out) = [] /\
  List.map fst (logger (snd out)) = [ERROR; ERROR; INFO].
Proof.
  intros files env out.
  pose proof (missing_template_ends_row env 0 meera (mkCounters 0 0 0) fresh
                (mkdate 1995 6 1) "meera@x.com"
                eq_refl eq_refl eq_refl eq_refl eq_refl) as H.
  fold out in H. rewrite H. repeat split.
Defined.

(** X9.  When the birthday of a row falls today, its e-mail is usable and the
    template exists, but the name cell is empty, personalising the template
    raises: the detection is logged with the name "nan", the error is
    logged, no session is opened, the counters stay, and the anniversary
    checks of the row are not made. *)
Theorem empty_name_ends_row env index row c st dob addr template :
  fst (parse_date (date_of_birth row) st) = Some dob ->
  month dob = month (today env) ->
  day dob = day (today env) ->
  usable_email (email row) = Some addr ->
  template_file env (template_path (config env) "birthday.html")
  = Some template ->
  employee_name row = Some TNaN ->
  process_row env index row c st
  = (c,
     log ERROR ("Error processing employee nan: "
                +:+ "replace() argument 2 must be str, not float")
       (log INFO ("🎂 Birthday detected: nan (Age: "
                  +:+ str (year (today env) - year dob) +:+ ")") st)).
Proof.
  intros Hp Hm Hd Hmail Ht Hn.
  unfold process_row, check_birthday, load_email_template, get_name.
  rewrite parse_date_eq, Hp, Hm, Hd, !Z.eqb_refl, Hmail, Ht, Hn.
  reflexivity.
Qed.

Lemma empty_name_ends_row_witness :
  let env := env_on (mkdate 2024 6 1) always_completes sample_files [nameless]
  in
  let out := process_row env 0 nameless (mkCounters 0 0 0) fresh in
  fst out = mkCounters 0 0 0 /\
  smtp_sessions (snd out) = [] /\
  List.map fst (logger (snd out)) = [ERROR; INFO].
Proof.
  intros env out.
  pose proof (empty_name_ends_row env 0 nameless (mkCounters 0 0 0) fresh
                (mkdate 1995 6 1) "someone@x.com" _
                eq_refl eq_refl eq_refl eq_refl eq_refl eq_refl) as H.
  fold out in H. rewrite H. repeat split.
Defined.

(** ** When [run] fails *)

(** X10.  [run] raises exactly when the gate is open and the workbook cannot be
    read, and then it raises the workbook's exception after logging it as a
    critical error, without opening a session.  Nothing that happens to a
    single row makes it raise. *)
Theorem run_raises_only_for_workbook env st e :
  (fst (run env st) = Raise e <-> gate_open env /\ workbook env = Raise e) /\
  (fst (run env st) = Raise e ->
   smtp_sessions (snd (run env st)) = smtp_sessions st /\
   exists older,
     logger (snd (run env st))
     = (ERROR, "Critical error in main execution: " +:+ exn_text e) :: older).
Proof.
  unfold run, gate_open.
  destruct (Z.eqb_spec (hour (clock_at_run env)) (target_hour env)) as [Hh|Hh];
    [| cbn; split; [split; [discriminate | tauto] | discriminate]].
  destruct (Z.eqb_spec (minute (clock_at_run env)) (target_minute env))
    as [Hm|Hm];
    [| cbn; split; [split; [discriminate | tauto] | discriminate]].
  cbn [negb orb]. unfold load_employee_data.
  destruct (workbook env) as [df|e'].
  - destruct (iterrows _ _ _ _ _) as [c' s'].
    cbn. split; [split; [discriminate | intros (_ & [=])] | discriminate].
  - destruct e'; cbn [fst snd]; (split; [split |]).
    all: try (intros [= <-]; cbn; eauto).
    all: intros (_ & [= <-]); reflexivity.
Qed.

Lemma run_raises_only_for_workbook_witness :
  let gone := FileNotFoundError "[Errno 2] No such file or directory" in
  let env :=
    mkEnv sample_config (mkdate 2024 3 15) 16 49 always_completes sample_files
          (Raise gone) at_1649 at_1649 in
  fst (run env fresh) = Raise gone /\
  smtp_sessions (snd (run env fresh)) = [].
Proof.
  intros gone env.
  destruct (run_raises_only_for_workbook env fresh gone) as [Hiff Hthen].
  assert (H : fst (run env fresh) = Raise gone).
  { apply Hiff. split; [split; reflexivity | reflexivity]. }
  split; [exact H | exact (proj1 (Hthen H))].
Defined.

(** ** What the resolver accepts *)

Lemma strptime_valid text fmt d :
  strptime text fmt = Ok d -> valid_date (year d) (month d) (day d) = true.
Proof.
  unfold strptime.
  destruct (pattern fmt) as [p|]; [| discriminate].
  destruct (re_match p text no_groups) as [[found rest]|]; [| discriminate].
  destruct rest; [| discriminate].
  destruct (valid_date _ _ _) eqn:E; [| discriminate].
  intros [= <-]. exact E.
Qed.

Lemma try_formats_valid text fmts d :
  try_formats text fmts = Ok (Some d) ->
  valid_date (year d) (month d) (day d) = true.
Proof.
  induction fmts as [|fmt fmts IH]; cbn [try_formats]; [discriminate |].
  destruct (strptime text fmt) as [d'|e] eqn:E.
  - intros [= <-]. exact (strptime_valid _ _ _ E).
  - destruct (strptime_raises _ _ _ E) as [msg ->]. exact IH.
Qed.

(** X11.  A date that [parse_date] reads from a text is a date of the calendar:
    year 1 to 9999, month 1 to 12, and a day that the month has in that
    year.  Texts such as "31-02-1990" or "29.02.1900" resolve to [None]. *)
Theorem parse_date_reads_calendar_dates text st d :
  fst (parse_date (Some (DStr text)) st) = Some d ->
  valid_date (year d) (month d) (day d) = true /\
  1 <= year d <= 9999 /\ 1 <= month d <= 12 /\
  1 <= day d <= days_in_month (year d) (month d).
Proof.
  unfold parse_date. cbn [isna].
  destruct (try_formats text date_formats) as [r|e] eqn:E; cbn [fst];
    [| discriminate].
  intros ->. pose proof (try_formats_valid _ _ _ E) as Hv.
  split; [exact Hv |]. unfold valid_date in Hv.
  rewrite !andb_true_iff, !Z.leb_le in Hv. lia.
Qed.

Lemma parse_date_reads_calendar_dates_witness :
  fst (parse_date (Some (DStr "29.02.2000")) fresh) = Some (mkdate 2000 2 29) /\
  valid_date 2000 2 29 = true /\
  fst (parse_date (Some (DStr "29.02.1900")) fresh) = None /\
  fst (parse_date (Some (DStr "31-02-1990")) fresh) = None.
Proof.
  split; [reflexivity |].
  split; [| split; reflexivity].
  exact (proj1 (parse_date_reads_calendar_dates "29.02.2000" fresh
                  (mkdate 2000 2 29) eq_refl)).
Defined.

(** ** No text is read by two formats *)

Lemma range_is_digit lo hi c :
  digit lo = true -> digit hi = true -> range lo hi c = true ->
  digit c = true.
Proof.
  unfold digit, range. rewrite !andb_true_iff, !Z.leb_le. lia.
Qed.

Lemma not_digit_not_in_range lo hi c :
  digit lo = true -> digit hi = true -> digit c = false ->
  range lo hi c = false.
Proof.
  intros Hlo Hhi Hc. destruct (range lo hi c) eqn:E; [| reflexivity].
  rewrite (range_is_digit lo hi c Hlo Hhi E) in Hc. discriminate.
Qed.

Ltac split_tests :=
  repeat (cbn [try_alts match_seq re_match];
          match goal with
          | |- context [if ?b then _ else _] => destruct b eqn:?
          end);
  cbn [try_alts match_seq re_match];
  try reflexivity; try congruence.

Lemma day_needs_separator c s p found :
  separated_by c s = false ->
  re_match (Group Dd :: Lit c :: p) s found = None.
Proof.
  intros H. rewrite re_match_group.
  destruct s as [|c1 [|c2 [|c3 r]]];
    cbn [separated_by] in H; cbn [alternatives].
  - reflexivity.
  - split_tests.
  - rewrite andb_false_r, orb_false_r in H. split_tests.
  - apply orb_false_iff in H. destruct H as [H2 H3].
    apply andb_false_iff in H3. destruct H3 as [H3 | H3].
    + pose proof (not_digit_not_in_range "0" "1" c2 eq_refl eq_refl H3).
      pose proof (not_digit_not_in_range "1" "9" c2 eq_refl eq_refl H3).
      split_tests.
    + split_tests.
Qed.

Lemma year_needs_four_digits s p found :
  year_first s = false ->
  re_match (Group DY :: p) s found = None.
Proof.
  intros H. rewrite re_match_group.
  destruct s as [|c1 [|c2 [|c3 [|c4 r]]]];
    cbn [year_first] in H; cbn [alternatives].
  - reflexivity.
  - split_tests.
  - split_tests.
  - split_tests.
  - cbn [try_alts match_seq].
    destruct (digit c1) eqn:E1; [| reflexivity].
    destruct (digit c2) eqn:E2; [| reflexivity].
    destruct (digit c3) eqn:E3; [| reflexivity].
    cbn [andb] in H. rewrite H. reflexivity.
Qed.

Lemma strptime_looks_like text fmt d :
  In fmt date_formats ->
  strptime text fmt = Ok d ->
  looks_like fmt text = true.
Proof.
  intros Hin Hok. destruct (looks_like fmt text) eqn:E; [reflexivity |].
  exfalso. unfold date_formats in Hin.
  destruct Hin as [<- | [<- | [<- | [<- | []]]]]; cbn in E.
  - destruct (strptime_no_match text "%d-%m-%Y"
                [Group Dd; Lit "-"; Group Dm; Lit "-"; Group DY] eq_refl
                (day_needs_separator _ _ _ _ E)) as [msg Hm]. congruence.
  - destruct (strptime_no_match text "%d/%m/%Y"
                [Group Dd; Lit "/"; Group Dm; Lit "/"; Group DY] eq_refl
                (day_needs_separator _ _ _ _ E)) as [msg Hm]. congruence.
  - destruct (strptime_no_match text "%Y-%m-%d"
                [Group DY; Lit "-"; Group Dm; Lit "-"; Group Dd] eq_refl
                (year_needs_four_digits _ _ _ E)) as [msg Hm]. congruence.
  - destruct (strptime_no_match text "%d.%m.%Y"
                [Group Dd; Lit "."; Group Dm; Lit "."; Group DY] eq_refl
                (day_needs_separator _ _ _ _ E)) as [msg Hm]. congruence.
Qed.

Lemma separated_unique c c' s :
  digit c = false -> digit c' = false ->
  separated_by c s = true -> separated_by c' s = true -> c = c'.
Proof.
  intros Hc Hc'. destruct s as [|c1 [|c2 r]]; cbn [separated_by];
    try discriminate.
  rewrite !orb_true_iff, !andb_true_iff, !Ascii.eqb_eq.
  intros [-> | [H2 H3]] [E | [H2' H3']].
  - now symmetry.
  - congruence.
  - subst c2. congruence.
  - destruct r as [|c3 r]; [discriminate |].
    apply Ascii.eqb_eq in H3, H3'. congruence.
Qed.

Lemma separated_not_year_first c s :
  digit c = false -> separated_by c s = true -> year_first s = false.
Proof.
  intros Hc. destruct s as [|c1 [|c2 [|c3 [|c4 r]]]]; try reflexivity.
  cbn [separated_by year_first].
  rewrite orb_true_iff, andb_true_iff, !Ascii.eqb_eq.
  intros [<- | [_ <-]]; rewrite Hc, ?andb_false_r; reflexivity.
Qed.

Lemma looks_like_one_format text f f' :
  In f date_formats -> In f' date_formats ->
  looks_like f text = true -> looks_like f' text = true -> f' = f.
Proof.
  unfold date_formats.
  intros [<- | [<- | [<- | [<- | []]]]] [<- | [<- | [<- | [<- | []]]]];
    cbn [looks_like String.eqb Ascii.eqb Bool.eqb]; intros H H';
    try reflexivity; exfalso.
  all: try (assert (E : ("-" = "/")%char)
              by (eapply separated_unique; eauto); discriminate E).
  all: try (assert (E : ("/" = "-")%char)
              by (eapply separated_unique; eauto); discriminate E).
  all: try (assert (E : ("-" = ".")%char)
              by (eapply separated_unique; eauto); discriminate E).
  all: try (assert (E : ("." = "-")%char)
              by (eapply separated_unique; eauto); discriminate E).
  all: try (assert (E : ("/" = ".")%char)
              by (eapply separated_unique; eauto); discriminate E).
  all: try (assert (E : ("." = "/")%char)
              by (eapply separated_unique; eauto); discriminate E).
  all: match goal with
       | Hs : separated_by ?c _ = true, Hy : year_first _ = true |- _ =>
           rewrite (separated_not_year_first c _ eq_refl Hs) in Hy;
           discriminate Hy
       end.
Qed.

Lemma try_formats_agree text fmts f d :
  (forall f' d', In f' fmts -> strptime text f' = Ok d' -> d' = d) ->
  In f fmts -> strptime text f = Ok d ->
  try_formats text fmts = Ok (Some d).
Proof.
  induction fmts as [|g fmts IH]; intros Hall Hin Hok; [destruct Hin |].
  cbn [try_formats]. destruct (strptime text g) as [d'|e] eqn:E.
  - now rewrite (Hall g d' (or_introl eq_refl) E).
  - destruct (strptime_raises _ _ _ E) as [msg ->].
    destruct Hin as [-> | Hin]; [congruence |].
    apply IH; [| exact Hin | exact Hok].
    intros f' d' Hf'. apply Hall. now right.
Qed.

Lemma reading_unique text f d f' d' :
  In f date_formats -> strptime text f = Ok d ->
  In f' date_formats -> strptime text f' = Ok d' ->
  f' = f /\ d' = d.
Proof.
  intros Hin Hok Hin' Hok'.
  assert (f' = f) as ->.
  { apply (looks_like_one_format text); auto;
      eapply strptime_looks_like; eauto. }
  split; [reflexivity | congruence].
Qed.

Lemma parse_date_of_reading text f d st :
  In f date_formats -> strptime text f = Ok d ->
  parse_date (Some (DStr text)) st = (Some d, st).
Proof.
  intros Hin Hok. unfold parse_date. cbn [isna].
  rewrite (try_formats_agree text date_formats f d); auto.
  intros f' d' Hin' Hok'.
  now apply (reading_unique text f d f' d').
Qed.

(** X12.  No text is read by two of the four formats.  So when one of them reads
    a text, it is the only one, and [parse_date] gives the date it read:
    the order in which the formats are tried never decides between two
    readings. *)
Theorem one_format_per_text text f d st :
  In f date_formats ->
  strptime text f = Ok d ->
  (forall f' d', In f' date_formats -> strptime text f' = Ok d' ->
     f' = f /\ d' = d) /\
  parse_date (Some (DStr text)) st = (Some d, st).
Proof.
  intros Hin Hok. split.
  - intros f' d' Hin' Hok'. exact (reading_unique text f d f' d' Hin Hok Hin' Hok').
  - exact (parse_date_of_reading text f d st Hin Hok).
Qed.

Lemma one_format_per_text_witness :
  strptime "01-02-2003" "%d-%m-%Y" = Ok (mkdate 2003 2 1) /\
  parse_date (Some (DStr "01-02-2003")) fresh = (Some (mkdate 2003 2 1), fresh) /\
  forall d', strptime "01-02-2003" "%Y-%m-%d" <> Ok d'.
Proof.
  assert (Hin : In "%d-%m-%Y" date_formats) by (left; reflexivity).
  destruct (one_format_per_text "01-02-2003" "%d-%m-%Y" (mkdate 2003 2 1)
              fresh Hin eq_refl) as [Huniq Hparse].
  split; [reflexivity |]. split; [exact Hparse |].
  intros d' Hd'.
  assert (Hin' : In "%Y-%m-%d" date_formats)
    by (right; right; left; reflexivity).
  destruct (Huniq _ _ Hin' Hd') as [E _]. discriminate E.
Defined.

(** ** Where the mails of a run go *)

Lemma send_email_new env e subj html k max st :
  exists new,
    smtp_sessions (snd (send_email env e subj html k max st))
    = new ++ smtp_sessions st /\
    (Z.of_nat (List.length new) <= Z.max 0 max) /\
    Forall (fun s => exists ok, s = session_of env e subj html k ok) new.
Proof.
  unfold send_email. case_bool_decide.
  { exists []. cbn. split; [reflexivity |]. split; [lia | constructor]. }
  destruct (Z_le_gt_dec max 0) as [Hle | Hgt].
  { rewrite py_range_nil by lia. exists []. cbn.
    split; [reflexivity |]. split; [lia | constructor]. }
  pose proof (attempt_loop_shape env e subj html k max (Z.to_nat max) 1 st
                ltac:(lia)) as Hs.
  cbv zeta in Hs.
  destruct (attempt_loop env e subj html k max (py_range 1 (max + 1)) st)
    as [r st'].
  cbn [fst snd] in *. destruct r.
  - destruct Hs as (j & Hj & Hs & _).
    exists (session_of env e subj html k true
            :: repeat (session_of env e subj html k false) j).
    split; [exact Hs |]. split.
    + cbn [List.length]. rewrite repeat_length. lia.
    + constructor; [eauto |]. apply Forall_forall. intros s Hin.
      apply list_elem_of_In, repeat_spec in Hin. eauto.
  - destruct Hs as (_ & Hs & _).
    exists (repeat (session_of env e subj html k false) (Z.to_nat max)).
    split; [exact Hs |]. split.
    + rewrite repeat_length. lia.
    + apply Forall_forall. intros s Hin.
      apply list_elem_of_In, repeat_spec in Hin. eauto.
  - destruct Hs as [Hz _]. lia.
Qed.

Lemma detector_step_new env row k st out :
  k = "birthday" \/ k = "work_anniversary" \/ k = "marriage_anniversary" ->
  detector_step env row k st out ->
  exists new,
    smtp_sessions (snd out) = new ++ smtp_sessions st /\
    (List.length new <= 3)%nat /\
    Forall (mail_of_row env row) new.
Proof.
  intros Hk [Hs _ _ _ _ | addr subj html st1 Hmail Hs _ _ _ ->].
  - exists []. split; [exact Hs |]. split; [cbn; lia | constructor].
  - destruct (send_email_new env addr subj html k 3 st1)
      as (new & Hnew & Hlen & Hall).
    exists new. cbn [snd]. rewrite Hnew, Hs.
    split; [reflexivity |]. split; [lia |].
    eapply Forall_impl; [exact Hall |].
    intros s [ok ->]. unfold mail_of_row, session_of; cbn.
    split; [exact Hmail |]. split; [exact Hk |].
    split; [now destruct (smtp_server (config env)) | reflexivity].
Qed.

Lemma process_row_new env index row c st :
  exists new,
    smtp_sessions (snd (process_row env index row c st))
    = new ++ smtp_sessions st /\
    (List.length new <= 9)%nat /\
    Forall (mail_of_row env row) new.
Proof.
  unfold process_row.
  destruct (detector_step_new env row "birthday" st _ ltac:(auto)
              (check_birthday_step env row st)) as (n1 & H1 & L1 & F1).
  destruct (check_birthday env row st) as [[r1|e1] st1]; cbn [snd] in *.
  2: { exists n1. split; [exact H1 |]. split; [lia | exact F1]. }
  destruct (detector_step_new env row "work_anniversary" st1 _ ltac:(auto)
              (check_work_anniversary_step env row st1))
    as (n2 & H2 & L2 & F2).
  destruct (check_work_anniversary env row st1) as [[r2|e2] st2];
    cbn [snd] in *.
  2: { exists (n2 ++ n1). cbn [smtp_sessions log].
       rewrite H2, H1, <- app_assoc.
       split; [reflexivity |]. rewrite length_app.
       split; [lia | now apply Forall_app]. }
  destruct (detector_step_new env row "marriage_anniversary" st2 _
              ltac:(auto) (check_marriage_anniversary_step env row st2))
    as (n3 & H3 & L3 & F3).
  exists (n3 ++ n2 ++ n1).
  assert (Hs : forall x, smtp_sessions
                 (snd (match check_marriage_anniversary env row st2 with
                       | (Raise e, s) =>
                           (x, log ERROR
                                 ("Error processing employee "
                                  +:+ fmt_text
                                        (get_name row ("Row " +:+ str index))
                                  +:+ ": " +:+ exn_text e) s)
                       | (Ok r, s) =>
                           (if truthy r
                            then mkCounters (birthday_count x)
                                   (work_anniversary_count x)
                                   (marriage_anniversary_count x + 1)
                            else x, s)
                       end))
               = smtp_sessions (snd (check_marriage_anniversary env row st2))).
  { intros x. now destruct (check_marriage_anniversary env row st2)
      as [[r3|e3] st3]. }
  rewrite Hs, H3, H2, H1, <- !app_assoc.
  split; [reflexivity |]. rewrite !length_app.
  split; [lia |]. apply Forall_app. split; [exact F3 |].
  now apply Forall_app.
Qed.

Lemma iterrows_new env df :
  forall index c st,
    exists new,
      smtp_sessions (snd (iterrows env index df c st))
      = new ++ smtp_sessions st /\
      (List.length new <= 9 * List.length df)%nat /\
      Forall (fun s => exists row, In row df /\ mail_of_row env row s) new.
Proof.
  induction df as [|row df IH]; intros index c st; cbn [iterrows].
  - exists []. split; [reflexivity |]. split; [cbn; lia | constructor].
  - destruct (process_row_new env index row c st) as (n1 & H1 & L1 & F1).
    destruct (process_row env index row c st) as [c1 st1]. cbn [snd] in H1.
    destruct (IH (index + 1) c1 st1) as (n2 & H2 & L2 & F2).
    exists (n2 ++ n1). rewrite H2, H1, <- app_assoc.
    split; [reflexivity |]. rewrite length_app. cbn [List.length].
    split; [lia |]. apply Forall_app. split.
    + eapply Forall_impl; [exact F2 |].
      intros s (r & Hr & Hm). exists r. split; [now right | exact Hm].
    + eapply Forall_impl; [exact F1 |].
      intros s Hm. exists row. split; [now left | exact Hm].
Qed.

(** X13.  Every session a run opens belongs to a row of the workbook: it goes to
    that row's own, non-empty e-mail, for one of the three events, from the
    configured sender through the configured server.  A run opens at most
    nine sessions per row (three events, three attempts each), and none
    when the workbook cannot be read or the gate is closed. *)
Theorem run_mails_rows_only env st :
  exists new,
    smtp_sessions (snd (run env st)) = new ++ smtp_sessions st /\
    Forall (fun s => exists df row,
              workbook env = Ok df /\ In row df /\ mail_of_row env row s)
           new /\
    (forall df, workbook env = Ok df ->
       (List.length new <= 9 * List.length df)%nat) /\
    (forall e, workbook env = Raise e -> new = []) /\
    (~ gate_open env -> new = []).
Proof.
  unfold run, gate_open.
  destruct (Z.eqb_spec (hour (clock_at_run env)) (target_hour env)) as [Hh|Hh].
  2: { exists []. cbn. split; [reflexivity |]. split; [constructor |].
       split; [intros; lia | auto]. }
  destruct (Z.eqb_spec (minute (clock_at_run env)) (target_minute env))
    as [Hm|Hm].
  2: { exists []. cbn. split; [reflexivity |]. split; [constructor |].
       split; [intros; lia | auto]. }
  cbn [negb orb]. unfold load_employee_data.
  destruct (workbook env) as [df|e'].
  - match goal with |- context [iterrows ?e ?i ?d ?c ?s] =>
      destruct (iterrows_new e d i c s) as (new & Hnew & Hlen & Hall);
      destruct (iterrows e i d c s) as [c' s']
    end.
    cbn [snd] in Hnew. exists new. cbn [snd]. unfold summary. cbn.
    split; [exact Hnew |]. split.
    + eapply Forall_impl; [exact Hall |].
      intros s (row & Hin & Hmail). exists df, row. auto.
    + split; [intros df' [= <-]; exact Hlen |].
      split; [discriminate | tauto].
  - exists []. destruct e'; cbn; (split; [reflexivity |]);
      (split; [constructor |]); (split; [discriminate | auto]).
Qed.

Lemma run_mails_rows_only_witness :
  let env := env_on (mkdate 2024 6 1) (fails_first 1) sample_files [meera] in
  List.map (fun s => (s_to s, s_event s, s_ok s))
           (smtp_sessions (snd (run env fresh)))
  = [("meera@x.com", "marriage_anniversary", true);
     ("meera@x.com", "work_anniversary", true);
     ("meera@x.com", "birthday", true);
     ("meera@x.com", "birthday", false)] /\
  Forall (fun s => exists df row,
            workbook env = Ok df /\ In row df /\ mail_of_row env row s)
         (smtp_sessions (snd (run env fresh))).
Proof.
  intros env. split; [reflexivity |].
  destruct (run_mails_rows_only env fresh) as (new & Hnew & Hall & _).
  rewrite Hnew, app_nil_r. exact Hall.
Defined.

(** ** Dates without leading zeros *)

Lemma py_int_short n : 0 <= n <= 99 -> py_int (short_digits n) = n.
Proof.
  intros H. unfold short_digits. destruct (Z.ltb_spec n 10).
  - unfold py_int. cbn [list_ascii_of_string fold_left].
    rewrite digit_char_digit, digit_char_code by lia. lia.
  - apply py_int_two. lia.
Qed.

Ltac step_short :=
  match goal with
  | |- context [digit_char ?n] =>
      let v := eval vm_compute in (digit_char n) in
      change (digit_char n) with v
  end;
  cbn [try_alts alternatives match_seq set_group];
  repeat match goal with
    | F : ?t = false |- context [if ?t then _ else _] => rewrite F
    end;
  eval_classes; cbn [try_alts match_seq];
  let H := fresh in intros H; now rewrite H.

(** A one-digit day or month before a character that is no digit. *)
Lemma re_match_short d n c rest p found res :
  d = Dd \/ d = Dm ->
  1 <= n <= 9 ->
  digit c = false ->
  re_match p (String c rest)
    (set_group d (String (digit_char n) EmptyString) found) = Some res ->
  re_match (Group d :: p) (String (digit_char n) (String c rest)) found
  = Some res.
Proof.
  intros Hd Hn Hc. rewrite re_match_group.
  pose proof (not_digit_not_in_range "0" "1" c eq_refl eq_refl Hc) as F1.
  pose proof (not_digit_not_in_range "1" "9" c eq_refl eq_refl Hc) as F2.
  pose proof (not_digit_not_in_range "0" "2" c eq_refl eq_refl Hc) as F3.
  assert (E : n = 1 \/ n = 2 \/ n = 3 \/ n = 4 \/ n = 5 \/ n = 6 \/ n = 7
              \/ n = 8 \/ n = 9) by lia.
  destruct Hd as [-> | ->];
    repeat (destruct E as [-> | E]; [step_short |]); subst n; step_short.
Qed.

(** A one-digit day at the end of the text. *)
Lemma re_match_short_last n found :
  1 <= n <= 9 ->
  re_match [Group Dd] (String (digit_char n) EmptyString) found
  = Some (set_group Dd (String (digit_char n) EmptyString) found, EmptyString).
Proof.
  intros Hn.
  assert (E : n = 1 \/ n = 2 \/ n = 3 \/ n = 4 \/ n = 5 \/ n = 6 \/ n = 7
              \/ n = 8 \/ n = 9) by lia.
  repeat (destruct E as [-> | E]; [reflexivity |]). subst n. reflexivity.
Qed.

Lemma re_match_day_typed dd c rest p found res :
  1 <= dd <= 31 ->
  digit c = false ->
  re_match p (String c rest) (set_group Dd (short_digits dd) found)
  = Some res ->
  re_match (Group Dd :: p) (short_digits dd +:+ String c rest) found
  = Some res.
Proof.
  intros Hdd Hc. unfold short_digits. destruct (Z.ltb_spec dd 10).
  - cbv [String.append]. apply re_match_short; [now left | lia | exact Hc].
  - apply re_match_day. exact Hdd.
Qed.

Lemma re_match_month_typed mm c rest p found res :
  1 <= mm <= 12 ->
  digit c = false ->
  re_match p (String c rest) (set_group Dm (short_digits mm) found)
  = Some res ->
  re_match (Group Dm :: p) (short_digits mm +:+ String c rest) found
  = Some res.
Proof.
  intros Hmm Hc. unfold short_digits. destruct (Z.ltb_spec mm 10).
  - cbv [String.append]. apply re_match_short; [now right | lia | exact Hc].
  - apply re_match_month. exact Hmm.
Qed.

Lemma re_match_day_typed_last dd found :
  1 <= dd <= 31 ->
  re_match [Group Dd] (short_digits dd +:+ EmptyString) found
  = Some (set_group Dd (short_digits dd) found, EmptyString).
Proof.
  intros Hdd. unfold short_digits. destruct (Z.ltb_spec dd 10).
  - cbv [String.append]. apply re_match_short_last. lia.
  - apply re_match_day; [exact Hdd | reflexivity].
Qed.

Section Typed.

Variable x : date.
Hypothesis Hvalid : valid_date (year x) (month x) (day x) = true.

Lemma typed_date_read :
  forall p,
    re_match p (render_short p x) no_groups
    = Some (written_short_groups x, EmptyString) ->
    forall fmt, pattern fmt = Some p ->
    strptime (written_short x fmt) fmt = Ok x.
Proof.
  intros p Hm fmt Hp. unfold strptime, written_short. rewrite Hp, Hm.
  destruct (valid_date_bounds _ _ _ Hvalid) as (Hy & Hmo & Hd).
  unfold written_short_groups. cbn [g_Y g_m g_d group_int].
  rewrite py_int_four, !py_int_short, Hvalid by lia.
  now destruct x.
Qed.

Ltac match_typed :=
  destruct (valid_date_bounds _ _ _ Hvalid) as (Hy & Hmo & Hd);
  cbn [render_short];
  repeat first
    [ rewrite re_match_lit
    | rewrite re_match_day_typed_last by lia
    | apply re_match_day_typed; [lia | reflexivity |]
    | apply re_match_month_typed; [lia | reflexivity |]
    | apply re_match_year; [lia |] ];
  reflexivity.

Lemma typed_dmy_hyphen :
  strptime (written_short x "%d-%m-%Y") "%d-%m-%Y" = Ok x.
Proof.
  apply (typed_date_read [Group Dd; Lit "-"; Group Dm; Lit "-"; Group DY]);
    [| reflexivity].
  match_typed.
Qed.

Lemma typed_dmy_slash :
  strptime (written_short x "%d/%m/%Y") "%d/%m/%Y" = Ok x.
Proof.
  apply (typed_date_read [Group Dd; Lit "/"; Group Dm; Lit "/"; Group DY]);
    [| reflexivity].
  match_typed.
Qed.

Lemma typed_ymd_hyphen :
  strptime (written_short x "%Y-%m-%d") "%Y-%m-%d" = Ok x.
Proof.
  apply (typed_date_read [Group DY; Lit "-"; Group Dm; Lit "-"; Group Dd]);
    [| reflexivity].
  match_typed.
Qed.

Lemma typed_dmy_dot :
  strptime (written_short x "%d.%m.%Y") "%d.%m.%Y" = Ok x.
Proof.
  apply (typed_date_read [Group Dd; Lit "."; Group Dm; Lit "."; Group DY]);
    [| reflexivity].
  match_typed.
Qed.

Lemma typed_own_format fmt :
  In fmt date_formats -> strptime (written_short x fmt) fmt = Ok x.
Proof.
  unfold date_formats. intros [<- | [<- | [<- | [<- | []]]]].
  - apply typed_dmy_hyphen.
  - apply typed_dmy_slash.
  - apply typed_ymd_hyphen.
  - apply typed_dmy_dot.
Qed.

End Typed.

(** X14.  A date typed without leading zeros, as in "5/3/1990" or "1990-3-5",
    resolves to the same date as its zero-padded form: for every valid date
    and each of the four formats, with day and month written in one digit
    when they are below ten. *)
Theorem typed_dates_resolve x fmt st :
  valid_date (year x) (month x) (day x) = true ->
  In fmt date_formats ->
  parse_date (Some (DStr (written_short x fmt))) st = (Some x, st).
Proof.
  intros Hvalid Hin.
  apply (parse_date_of_reading _ fmt); [exact Hin |].
  now apply typed_own_format.
Qed.

Lemma typed_dates_resolve_witness :
  let x := mkdate 1990 3 5 in
  written_short x "%d/%m/%Y" = "5/3/1990" /\
  written_short x "%Y-%m-%d" = "1990-3-5" /\
  parse_date (Some (DStr "5/3/1990")) fresh = (Some x, fresh) /\
  parse_date (Some (DStr "1990-3-5")) fresh = (Some x, fresh).
Proof.
  intros x. split; [reflexivity |]. split; [reflexivity |].
  split.
  - apply (typed_dates_resolve x "%d/%m/%Y" fresh eq_refl).
    right; left; reflexivity.
  - apply (typed_dates_resolve x "%Y-%m-%d" fresh eq_refl).
    right; right; left; reflexivity.
Defined.
